(** * Progressive Sample Consensus (PROSAC): the trial loop of
      [pcl::ProgressiveSampleConsensus<PointT>::computeModel] and the
      configuration accessors of [pcl::SACSegmentation].

    The development is a shallow embedding: every C++ statement of
    [computeModel] is one line of the functions below, the locals of the
    function are the fields of a record, and the three operations of the
    sample consensus model ([getSamples], [computeModelCoefficients],
    [selectWithinDistance]) together with the library functions that are
    not IEEE-754 primitives ([std::pow], [log], the binomial quantile of
    Boost) are parameters. *)

From Stdlib Require Import ZArith List Bool Lia Floats.SpecFloat.
From Stdlib Require Import Sorting.Sorted Sorting.Permutation.
Import ListNotations.
Local Open Scope Z_scope.

Set Implicit Arguments.

(** ** Machine integers *)

Module MachInt.

Definition UINT_MAX : Z := 4294967295.
Definition INT_MAX : Z := 2147483647.
Definition INT_MIN : Z := -2147483648.
Definition SIZE_MAX : Z := 18446744073709551615.

(** Conversion of any integer value to [unsigned int]. *)
Definition to_unsigned (z : Z) : Z := z mod (UINT_MAX + 1).

End MachInt.
Import MachInt.

(** ** Outcomes of C++ code

    [Ok] is a normal return.  [OutOfRange] is the [std::out_of_range]
    thrown by [std::vector::at].  [Undefined] marks behaviour the C++
    standard leaves undefined: [operator[]] past the end, [pop_back] on
    an empty vector, signed overflow, and a floating-point value
    converted to an integer type that cannot hold it.  [OutOfFuel] only
    says that the bound given to the loop was too small. *)

Inductive result (A : Type) : Type :=
| Ok (a : A)
| OutOfRange
| Undefined
| OutOfFuel.

Arguments Ok {A} a.
Arguments OutOfRange {A}.
Arguments Undefined {A}.
Arguments OutOfFuel {A}.

Definition bind {A B} (r : result A) (k : A -> result B) : result B :=
  match r with
  | Ok a => k a
  | OutOfRange => OutOfRange
  | Undefined => Undefined
  | OutOfFuel => OutOfFuel
  end.

Notation "x <- r ;; k" := (bind r (fun x => k))
  (at level 61, r at next level, right associativity).

(** ** IEEE-754 numbers

    [float] is binary32 and [double] is binary64; both are values of
    [spec_float], and the operations round to nearest even with the
    precision of their type. *)

Module FP.

Definition float := spec_float.
Definition double := spec_float.

Definition fadd : float -> float -> float := SFadd 24 128.
Definition fsub : float -> float -> float := SFsub 24 128.
Definition fmul : float -> float -> float := SFmul 24 128.
Definition fdiv : float -> float -> float := SFdiv 24 128.
Definition dadd : double -> double -> double := SFadd 53 1024.
Definition ddiv : double -> double -> double := SFdiv 53 1024.

Definition feq : spec_float -> spec_float -> bool := SFeqb.
Definition flt : spec_float -> spec_float -> bool := SFltb.
Definition fle : spec_float -> spec_float -> bool := SFleb.

(** Integer to floating point, and the two conversions between the
    floating-point types. *)
Definition float_of_Z (z : Z) : float := binary_normalize 24 128 z 0 false.
Definition double_of_Z (z : Z) : double := binary_normalize 53 1024 z 0 false.

Definition round_to (prec emax : Z) (x : spec_float) : spec_float :=
  match x with
  | S754_finite s m e => binary_round prec emax s m e
  | _ => x
  end.

Definition double_of_float : float -> double := round_to 53 1024.
Definition float_of_double : double -> float := round_to 24 128.

(** The integer part of a number, rounded toward zero; infinities and
    NaN have none. *)
Definition truncate (x : spec_float) : option Z :=
  match x with
  | S754_zero _ => Some 0
  | S754_finite s m e =>
      let a := match e with
               | Zneg p => Z.shiftr (Zpos m) (Zpos p)
               | _ => Z.shiftl (Zpos m) e
               end in
      Some (if s then - a else a)
  | _ => None
  end.

(** [ceil] on a double: the least integer not below [x]. *)
Definition ceil (x : double) : double :=
  match x with
  | S754_finite s m (Zneg p) =>
      let q := Z.shiftr (Zpos m) (Zpos p) in
      let exact := Z.eqb (Z.shiftl q (Zpos p)) (Zpos m) in
      if s then binary_normalize 53 1024 (- q) 0 true
      else binary_normalize 53 1024 (if exact then q else q + 1) 0 false
  | _ => x
  end.

(** Floating point to integer: the value is truncated, and the
    conversion is undefined when the truncated value does not fit. *)
Definition to_integer (lo hi : Z) (x : spec_float) : result Z :=
  match truncate x with
  | Some z => if (lo <=? z) && (z <=? hi) then Ok z else Undefined
  | None => Undefined
  end.

Definition to_unsigned_int : spec_float -> result Z := to_integer 0 UINT_MAX.
Definition to_int : spec_float -> result Z := to_integer INT_MIN INT_MAX.
Definition to_size_t : spec_float -> result Z := to_integer 0 SIZE_MAX.

Definition DBL_MAX : double := S754_finite false 9007199254740991 971.

End FP.
Import FP.

(** [int_float v x]: [x] is the normal float of the integer [v],
    [0 < v < 2^24]. *)
Definition int_float (v : Z) (x : spec_float) : Prop :=
  exists r t, x = S754_finite false r t /\ digits2_pos r = 24%positive /\
              -23 <= t <= 0 /\ Zpos r = v * 2 ^ (- t).

(** ** Vectors of [int] *)

Module Vec.

(** [v.at(i)]: bounds-checked. *)
Definition at_ (v : list Z) (i : Z) : result Z :=
  match nth_error v (Z.to_nat i) with
  | Some x => Ok x
  | None => OutOfRange
  end.

(** [v[i]]: unchecked. *)
Definition index (v : list Z) (i : Z) : result Z :=
  match nth_error v (Z.to_nat i) with
  | Some x => Ok x
  | None => Undefined
  end.

(** [v.pop_back ()]. *)
Definition pop_back (v : list Z) : result (list Z) :=
  match v with
  | [] => Undefined
  | _ => Ok (removelast v)
  end.

Definition push_back (v : list Z) (x : Z) : list Z := v ++ [x].

(** [v.size ()] stored in an [unsigned int]. *)
Definition size (v : list Z) : Z := to_unsigned (Z.of_nat (length v)).

Definition empty (v : list Z) : bool :=
  match v with [] => true | _ => false end.

(** [std::sort (v.begin (), v.end ())] on [int]: ascending. *)
Fixpoint insert (x : Z) (v : list Z) : list Z :=
  match v with
  | [] => [x]
  | y :: w => if x <=? y then x :: v else y :: insert x w
  end.

Definition sort (v : list Z) : list Z := fold_right insert [] v.

End Vec.

(** ** The sample consensus model and the numeric library

    [sac_model_] is used through four members.  Its index vector
    [indices_] is kept apart from the rest of the object, of type [MS]:
    the three operations read [indices_] and may change the rest (the
    random generator of [getSamples], caches).  [getSamples] receives
    the value of the trial counter and fills the cleared vector
    [selection];
    [computeModelCoefficients] returns its [bool] and the new content
    of its output vector; [selectWithinDistance] fills the cleared
    vector [inliers]. *)

Definition Coeffs := list float.

Record SampleConsensusModel (MS : Type) : Type := {
  getSampleSize : Z;
  getSamples : MS -> list Z -> Z -> MS * list Z;
  computeModelCoefficients :
    MS -> list Z -> list Z -> Coeffs -> MS * (bool * Coeffs);
  selectWithinDistance :
    MS -> list Z -> Coeffs -> double -> MS * list Z
}.

(** [powf] is [std::pow] on two floats; [log] is [log] on a double;
    [binomial_quantile k] is
    [quantile (complement (binomial_distribution<float>(k, 0.1), 0.05))]. *)
Record Numerics : Type := {
  powf : float -> float -> float;
  log : double -> double;
  binomial_quantile : Z -> float
}.

(** The calls made on the model, most recent first (a history of the
    run; it is written and never read). *)
Inductive call : Type :=
| GetSamples (iterations : Z) (indices : list Z)
| ComputeModelCoefficients (samples : list Z)
| SelectWithinDistance (indices : list Z) (model_coefficients : Coeffs)
    (threshold : double).

(** ** The state of [computeModel] *)

Section Prosac.

Variable MS : Type.
Variable M : SampleConsensusModel MS.
Variable L : Numerics.

(** The members of [SampleConsensus] that [computeModel] uses, with
    the model object behind [sac_model_] held in place. *)
Record SampleConsensus : Type := {
  sac_model_ : MS;
  indices_ : list Z;
  threshold_ : double;
  max_iterations_ : Z;
  iterations_ : Z;
  inliers_ : list Z;
  model_ : list Z;
  model_coefficients_ : Coeffs;
  calls : list call
}.

(** The local variables of [computeModel]. *)
Record frame : Type := {
  T_N : float;
  N : Z;
  m : Z;
  T_n : float;
  T_prime_n : float;
  I_N_best : Z;
  n : float;
  n_star : float;
  I_n_star : Z;
  epsilon_n_star : float;
  k_n_star : Z;
  inliers : list Z;
  selection : list Z;
  model_coefficients : Coeffs;
  index_pool : list Z
}.

Record state : Type := { this : SampleConsensus; fr : frame }.

(** [model_called v c e]: an operation of the model has returned, the
    model is now [v] and the call [c] is added to the history. *)
Definition model_called (v : MS) (c : call) (e : SampleConsensus) :=
  {| sac_model_ := v; indices_ := indices_ e; threshold_ := threshold_ e;
     max_iterations_ := max_iterations_ e; iterations_ := iterations_ e;
     inliers_ := inliers_ e; model_ := model_ e;
     model_coefficients_ := model_coefficients_ e; calls := c :: calls e |}.

(** Assignments to one member or one local. *)
Definition set_indices_ (v : list Z) (e : SampleConsensus) :=
  {| sac_model_ := sac_model_ e; indices_ := v; threshold_ := threshold_ e;
     max_iterations_ := max_iterations_ e; iterations_ := iterations_ e;
     inliers_ := inliers_ e; model_ := model_ e;
     model_coefficients_ := model_coefficients_ e; calls := calls e |}.

Definition set_iterations_ (v : Z) (e : SampleConsensus) :=
  {| sac_model_ := sac_model_ e; indices_ := indices_ e;
     threshold_ := threshold_ e; max_iterations_ := max_iterations_ e;
     iterations_ := v; inliers_ := inliers_ e; model_ := model_ e;
     model_coefficients_ := model_coefficients_ e; calls := calls e |}.

Definition set_inliers_ (v : list Z) (e : SampleConsensus) :=
  {| sac_model_ := sac_model_ e; indices_ := indices_ e;
     threshold_ := threshold_ e; max_iterations_ := max_iterations_ e;
     iterations_ := iterations_ e; inliers_ := v; model_ := model_ e;
     model_coefficients_ := model_coefficients_ e; calls := calls e |}.

Definition set_best (inls sel : list Z) (mc : Coeffs) (e : SampleConsensus) :=
  {| sac_model_ := sac_model_ e; indices_ := indices_ e;
     threshold_ := threshold_ e; max_iterations_ := max_iterations_ e;
     iterations_ := iterations_ e; inliers_ := inls; model_ := sel;
     model_coefficients_ := mc; calls := calls e |}.

Definition set_pool (n' T_n' T_prime_n' : float) (pool : list Z) (f : frame) :=
  {| T_N := T_N f; N := N f; m := m f; T_n := T_n'; T_prime_n := T_prime_n';
     I_N_best := I_N_best f; n := n'; n_star := n_star f;
     I_n_star := I_n_star f; epsilon_n_star := epsilon_n_star f;
     k_n_star := k_n_star f; inliers := inliers f; selection := selection f;
     model_coefficients := model_coefficients f; index_pool := pool |}.

Definition set_index_pool (pool : list Z) (f : frame) :=
  set_pool (n f) (T_n f) (T_prime_n f) pool f.

Definition set_n (n' : float) (f : frame) :=
  set_pool n' (T_n f) (T_prime_n f) (index_pool f) f.

Definition set_selection (v : list Z) (f : frame) :=
  {| T_N := T_N f; N := N f; m := m f; T_n := T_n f;
     T_prime_n := T_prime_n f; I_N_best := I_N_best f; n := n f;
     n_star := n_star f; I_n_star := I_n_star f;
     epsilon_n_star := epsilon_n_star f; k_n_star := k_n_star f;
     inliers := inliers f; selection := v;
     model_coefficients := model_coefficients f;
     index_pool := index_pool f |}.

Definition set_model_coefficients (v : Coeffs) (f : frame) :=
  {| T_N := T_N f; N := N f; m := m f; T_n := T_n f;
     T_prime_n := T_prime_n f; I_N_best := I_N_best f; n := n f;
     n_star := n_star f; I_n_star := I_n_star f;
     epsilon_n_star := epsilon_n_star f; k_n_star := k_n_star f;
     inliers := inliers f; selection := selection f;
     model_coefficients := v; index_pool := index_pool f |}.

Definition set_inliers (v : list Z) (f : frame) :=
  {| T_N := T_N f; N := N f; m := m f; T_n := T_n f;
     T_prime_n := T_prime_n f; I_N_best := I_N_best f; n := n f;
     n_star := n_star f; I_n_star := I_n_star f;
     epsilon_n_star := epsilon_n_star f; k_n_star := k_n_star f;
     inliers := v; selection := selection f;
     model_coefficients := model_coefficients f;
     index_pool := index_pool f |}.

Definition set_I_N_best (v : Z) (f : frame) :=
  {| T_N := T_N f; N := N f; m := m f; T_n := T_n f;
     T_prime_n := T_prime_n f; I_N_best := v; n := n f;
     n_star := n_star f; I_n_star := I_n_star f;
     epsilon_n_star := epsilon_n_star f; k_n_star := k_n_star f;
     inliers := inliers f; selection := selection f;
     model_coefficients := model_coefficients f;
     index_pool := index_pool f |}.

Definition set_budget (eps : float) (k : Z) (f : frame) :=
  {| T_N := T_N f; N := N f; m := m f; T_n := T_n f;
     T_prime_n := T_prime_n f; I_N_best := I_N_best f; n := n f;
     n_star := n_star f; I_n_star := I_n_star f;
     epsilon_n_star := eps; k_n_star := k;
     inliers := inliers f; selection := selection f;
     model_coefficients := model_coefficients f;
     index_pool := index_pool f |}.

Definition on_this (g : SampleConsensus -> SampleConsensus) (s : state) :=
  {| this := g (this s); fr := fr s |}.

Definition on_frame (g : frame -> frame) (s : state) :=
  {| this := this s; fr := g (fr s) |}.

(** [sac_model_->indices_->swap (index_pool)]. *)
Definition swap_indices (s : state) : state :=
  {| this := set_indices_ (index_pool (fr s)) (this s);
     fr := set_index_pool (indices_ (this s)) (fr s) |}.

(** [++iterations_] on an [int]. *)
Definition incr_iterations (s : state) : result state :=
  if iterations_ (this s) <? INT_MAX
  then Ok (on_this (set_iterations_ (iterations_ (this s) + 1)) s)
  else Undefined.

(** ** [computeModel]: the constants and the first pool *)

(** [for (i = 0; i < m; ++i) T_n *= (float)(m - i) / (float)(N - i);]
    run from [i] for [count] more rounds. *)
Fixpoint T_n_init (N m : Z) (count : nat) (i : Z) (T : float) : float :=
  match count with
  | O => T
  | S c =>
      T_n_init N m c (i + 1)
        (fmul T (fdiv (float_of_Z (to_unsigned (m - i)))
                      (float_of_Z (to_unsigned (N - i)))))
  end.

(** [for (i = 0; i < n; ++i) index_pool.push_back (indices_[i]);]
    The bound [room] counts the reads that can stay inside [indices];
    the read after them is past the end. *)
Fixpoint fill_pool (room : nat) (indices : list Z) (n : float) (i : Z)
    (pool : list Z) : result (list Z) :=
  if flt (float_of_Z i) n then
    match room with
    | O => Undefined
    | S r =>
        x <- Vec.index indices i;;
        fill_pool r indices n (to_unsigned (i + 1)) (Vec.push_back pool x)
    end
  else Ok pool.

Definition init (e : SampleConsensus) : result state :=
  let T_N := float_of_Z 200000 in
  let N := Vec.size (indices_ e) in
  let m := to_unsigned (getSampleSize M) in
  let T_n := T_n_init N m (Z.to_nat m) 0 T_N in
  let T_prime_n := float_of_Z 1 in
  let I_N_best := 0 in
  let n := float_of_Z m in
  let n_star := float_of_Z N in
  let I_n_star := 0 in
  let epsilon_n_star := fdiv (float_of_Z I_n_star) n_star in
  k_n_star <- to_unsigned_int T_N;;
  index_pool <- fill_pool (length (indices_ e)) (indices_ e) n 0 [];;
  Ok {| this := set_iterations_ 0 e;
        fr := {| T_N := T_N; N := N; m := m; T_n := T_n;
                 T_prime_n := T_prime_n; I_N_best := I_N_best; n := n;
                 n_star := n_star; I_n_star := I_n_star;
                 epsilon_n_star := epsilon_n_star; k_n_star := k_n_star;
                 inliers := []; selection := []; model_coefficients := [];
                 index_pool := index_pool |} |}.

(** ** One pass through the body of the [while] loop *)

Inductive step : Type :=
| Continue (s : state)
| Break (s : state).

(** Step 1: the pool grows when the trial counter reaches [T_prime_n]. *)
Definition grow (s : state) : result step :=
  let e := this s in
  let f := fr s in
  if feq (float_of_Z (iterations_ e)) (T_prime_n f) && flt (n f) (n_star f)
  then
    let n' := fadd (n f) (float_of_Z 1) in
    if fle (float_of_Z (N f)) n' then Ok (Break (on_frame (set_n n') s))
    else
      i <- to_size_t (fsub n' (float_of_Z 1));;
      x <- Vec.at_ (indices_ e) i;;
      let T_n_minus_1 := T_n f in
      let T_n' :=
        fmul (T_n f)
          (fdiv (fadd n' (float_of_Z 1))
                (fsub (fadd n' (float_of_Z 1)) (float_of_Z (m f)))) in
      let T_prime_n' :=
        float_of_double
          (dadd (double_of_float (T_prime_n f))
                (ceil (double_of_float (fsub T_n' T_n_minus_1)))) in
      Ok (Continue
            (on_frame
               (set_pool n' T_n' T_prime_n' (Vec.push_back (index_pool f) x))
               s))
  else Ok (Continue s).

(** Step 2: the samples are drawn with the pool in the place of the
    indices of the model, and the two vectors are swapped back. *)
Definition draw (s : state) : result state :=
  let s1 := swap_indices s in
  let it := iterations_ (this s1) in
  let '(ms, sel) := getSamples M (sac_model_ (this s1)) (indices_ (this s1)) it in
  let s2 := on_this (model_called ms (GetSamples it (indices_ (this s1)))) s1 in
  sel' <- (if flt (T_prime_n (fr s2)) (float_of_Z it) then
             popped <- Vec.pop_back sel;;
             i <- to_size_t (fsub (n (fr s2)) (float_of_Z 1));;
             x <- Vec.at_ (indices_ (this s2)) i;;
             Ok (Vec.push_back popped x)
           else Ok sel);;
  Ok (swap_indices (on_frame (set_selection sel') s2)).

(** The search for a better [n_star] over the sorted inliers, last
    inlier first. *)
Record scan_state : Type := {
  possible_n_star_best : Z;
  I_possible_n_star_best : Z;
  epsilon_possible_n_star_best : float;
  I_possible_n_star : Z
}.

Fixpoint scan (m : Z) (epsilon_n_star : float) (last_inliers : list Z)
    (c : scan_state) : result scan_state :=
  match last_inliers with
  | [] => Ok c
  | last_inlier :: rest =>
      if last_inlier <? INT_MAX then
        let possible_n_star := to_unsigned (last_inlier + 1) in
        if possible_n_star <=? m then Ok c
        else
          let epsilon_possible_n_star :=
            fdiv (float_of_Z (I_possible_n_star c)) (float_of_Z possible_n_star) in
          if flt epsilon_n_star epsilon_possible_n_star
             && flt (epsilon_possible_n_star_best c) epsilon_possible_n_star
          then
            I_possible_n_star_min <-
              to_unsigned_int
                (dadd (double_of_Z m)
                      (ceil (double_of_float (binomial_quantile L possible_n_star))));;
            if I_possible_n_star c <? I_possible_n_star_min then Ok c
            else
              scan m epsilon_n_star rest
                {| possible_n_star_best := possible_n_star;
                   I_possible_n_star_best := I_possible_n_star c;
                   epsilon_possible_n_star_best := epsilon_possible_n_star;
                   I_possible_n_star := to_unsigned (I_possible_n_star c - 1) |}
          else
            scan m epsilon_n_star rest
              {| possible_n_star_best := possible_n_star_best c;
                 I_possible_n_star_best := I_possible_n_star_best c;
                 epsilon_possible_n_star_best := epsilon_possible_n_star_best c;
                 I_possible_n_star := to_unsigned (I_possible_n_star c - 1) |}
      else Undefined
  end.

Definition scan_start (N I_N : Z) : scan_state :=
  {| possible_n_star_best := N;
     I_possible_n_star_best := I_N;
     epsilon_possible_n_star_best := fdiv (float_of_Z I_N) (float_of_Z N);
     I_possible_n_star := I_N |}.

(** The literal [0.05] as a double. *)
Definition d_0_05 : double := S754_finite false 7205759403792794 (-57).

(** The new [k_n_star] for an improved [epsilon_n_star]. *)
Definition new_k_n_star (T_N : float) (m : Z) (epsilon_n_star : float) : result Z :=
  let bottom_log :=
    fsub (float_of_Z 1) (powf L epsilon_n_star (float_of_Z m)) in
  k <- (if feq bottom_log (float_of_Z 0) then Ok 1
        else if feq bottom_log (float_of_Z 1) then to_unsigned_int T_N
        else
          i <- to_int (ceil (ddiv (log L d_0_05)
                                  (log L (double_of_float bottom_log))));;
          Ok (to_unsigned i));;
  Ok (Z.max k (to_unsigned (2 * m))).

(** The body of [if (I_N > I_N_best)]. *)
Definition improve (I_N : Z) (s : state) : result state :=
  let f := fr s in
  let s1 := on_frame (set_I_N_best I_N) s in
  let s2 :=
    on_this (set_best (inliers f) (selection f) (model_coefficients f)) s1 in
  let s3 := on_frame (set_inliers (Vec.sort (inliers f))) s2 in
  c <- scan (m f) (epsilon_n_star f) (rev (inliers (fr s3)))
         (scan_start (N f) I_N);;
  if flt (epsilon_n_star f) (epsilon_possible_n_star_best c) then
    let epsilon_n_star' := epsilon_possible_n_star_best c in
    k <- new_k_n_star (T_N f) (m f) epsilon_n_star';;
    Ok (on_frame (set_budget epsilon_n_star' k) s3)
  else Ok s3.

(** The coefficients of the trial, then its inliers. *)
Definition estimate (s : state) : bool * state :=
  let e := this s in
  let '(ms, (ok, mc)) :=
    computeModelCoefficients M (sac_model_ e) (indices_ e)
      (selection (fr s)) (model_coefficients (fr s)) in
  (ok,
   on_frame (set_model_coefficients mc)
     (on_this (model_called ms (ComputeModelCoefficients (selection (fr s)))) s)).

Definition select (s : state) : state :=
  let e := this s in
  let '(ms, found) :=
    selectWithinDistance M (sac_model_ e) (indices_ e)
      (model_coefficients (fr s)) (threshold_ e) in
  on_frame (set_inliers found)
    (on_this
       (model_called ms
          (SelectWithinDistance (indices_ e) (model_coefficients (fr s))
             (threshold_ e)))
       s).

Definition trial (s : state) : result step :=
  g <- grow s;;
  match g with
  | Break s' => Ok (Break s')
  | Continue s1 =>
      s2 <- draw s1;;
      if Vec.empty (selection (fr s2)) then Ok (Break s2)
      else
        let '(ok, s3) := estimate s2 in
        if negb ok then
          s4 <- incr_iterations s3;;
          Ok (Continue s4)
        else
          let s4 := select s3 in
          let I_N := Vec.size (inliers (fr s4)) in
          s5 <- (if I_N_best (fr s4) <? I_N then improve I_N s4 else Ok s4);;
          s6 <- incr_iterations s5;;
          if max_iterations_ (this s6) <? iterations_ (this s6)
          then Ok (Break s6)
          else Ok (Continue s6)
  end.

(** [while ((unsigned int)iterations_ < k_n_star)]. *)
Fixpoint loop (fuel : nat) (s : state) : result state :=
  if to_unsigned (iterations_ (this s)) <? k_n_star (fr s) then
    match fuel with
    | O => OutOfFuel
    | S fuel' =>
        r <- trial s;;
        match r with
        | Continue s' => loop fuel' s'
        | Break s' => Ok s'
        end
    end
  else Ok s.

Definition computeModel (fuel : nat) (e : SampleConsensus)
    : result (bool * SampleConsensus) :=
  if feq (threshold_ e) DBL_MAX then Ok (false, e)
  else
    s0 <- init e;;
    s <- loop fuel s0;;
    if Vec.empty (model_ (this s))
    then Ok (false, set_inliers_ [] (this s))
    else Ok (true, this s).

End Prosac.

Arguments Continue {MS} s.
Arguments Break {MS} s.

(** ** The orchestrator's configuration: [pcl::SACSegmentation] *)

Module Segmentation.

Record SACSegmentation : Type := {
  model_type_ : Z;
  method_type_ : Z;
  threshold_ : double;
  optimize_coefficients_ : bool;
  radius_min_ : double;
  radius_max_ : double;
  eps_angle_ : double;
  max_iterations_ : Z;
  probability_ : double
}.

Definition setDistanceThreshold (threshold : double) (c : SACSegmentation) :=
  {| model_type_ := model_type_ c; method_type_ := method_type_ c;
     threshold_ := threshold;
     optimize_coefficients_ := optimize_coefficients_ c;
     radius_min_ := radius_min_ c; radius_max_ := radius_max_ c;
     eps_angle_ := eps_angle_ c; max_iterations_ := max_iterations_ c;
     probability_ := probability_ c |}.

Definition getDistanceThreshold (c : SACSegmentation) : double := threshold_ c.

Definition setMaxIterations (max_iterations : Z) (c : SACSegmentation) :=
  {| model_type_ := model_type_ c; method_type_ := method_type_ c;
     threshold_ := threshold_ c;
     optimize_coefficients_ := optimize_coefficients_ c;
     radius_min_ := radius_min_ c; radius_max_ := radius_max_ c;
     eps_angle_ := eps_angle_ c; max_iterations_ := max_iterations;
     probability_ := probability_ c |}.

Definition getMaxIterations (c : SACSegmentation) : Z := max_iterations_ c.

End Segmentation.

(** ** Runs *)

Section Runs.

Variable MS : Type.
Variable M : SampleConsensusModel MS.
Variable L : Numerics.

Definition state_of (r : step MS) : state MS :=
  match r with Continue s => s | Break s => s end.

(** The loop test. *)
Definition in_budget (s : state MS) : Prop :=
  to_unsigned (iterations_ (this s)) < k_n_star (fr s).

(** [at_head s0 s]: the loop that started in [s0] comes to its test in
    state [s]. *)
Inductive at_head (s0 : state MS) : state MS -> Prop :=
| head_start : at_head s0 s0
| head_next s s' :
    at_head s0 s -> in_budget s -> trial M L s = Ok (Continue s') ->
    at_head s0 s'.

(** [exits s0 s]: the loop that started in [s0] ends in state [s]. *)
Inductive exits (s0 : state MS) : state MS -> Prop :=
| exit_test s : at_head s0 s -> ~ in_budget s -> exits s0 s
| exit_break s s' :
    at_head s0 s -> in_budget s -> trial M L s = Ok (Break s') ->
    exits s0 s'.

(** [tried s0 s r]: the loop that started in [s0] runs a trial in
    state [s], and [r] is what the trial gives. *)
Definition tried (s0 s : state MS) (r : step MS) : Prop :=
  at_head s0 s /\ in_budget s /\ trial M L s = Ok r.

(** The trial took the branch of [if (I_N > I_N_best)]: its inliers
    were accepted as the best so far. *)
Definition accepted (s : state MS) (r : step MS) : Prop :=
  I_N_best (fr s) < I_N_best (fr (state_of r)).

(** The members and locals that no statement of the loop assigns. *)
Definition fixed (s : state MS) :=
  (indices_ (this s), threshold_ (this s), max_iterations_ (this s),
   (T_N (fr s), N (fr s), m (fr s), n_star (fr s), I_n_star (fr s))).

(** The stored best result. *)
Definition best (s : state MS) :=
  (model_ (this s), model_coefficients_ (this s), inliers_ (this s)).

(** A call of [selectWithinDistance] made while the indices of the
    model are [full]. *)
Definition selects_on (full : list Z) (c : call) : Prop :=
  match c with
  | SelectWithinDistance indices _ _ => indices = full
  | _ => True
  end.

(** A call of [getSamples] made while the indices of the model are
    [pool]. *)
Definition samples_on (pool : list Z) (c : call) : Prop :=
  match c with
  | GetSamples _ indices => indices = pool
  | _ => True
  end.

(** When the count of the best trial is positive, a selection is
    stored and the stored inliers are as many as the count. *)
Definition recorded (s : state MS) : Prop :=
  0 < I_N_best (fr s) ->
  model_ (this s) <> [] /\ Vec.size (inliers_ (this s)) = I_N_best (fr s).

(** [pool_is full m0 k s]: in state [s] the pool has size [k], between
    [m0] and the number of indices, and is made of the first [k]
    indices of [full], which the model holds. *)
Definition pool_is (full : list Z) (m0 k : Z) (s : state MS) : Prop :=
  n (fr s) = float_of_Z k /\
  m0 <= k <= Z.of_nat (length full) /\
  index_pool (fr s) = firstn (Z.to_nat k) full /\
  indices_ (this s) = full /\
  N (fr s) = Z.of_nat (length full) /\
  n_star (fr s) = float_of_Z (Z.of_nat (length full)).

(** The four ways through the body of the loop: the pool is full, no
    sample was selected, the estimate failed, the trial was
    evaluated. *)
Inductive trial_run (s : state MS) : step MS -> Prop :=
| run_pool_full s' :
    grow s = Ok (Break s') -> trial_run s (Break s')
| run_no_samples s1 s2 :
    grow s = Ok (Continue s1) -> draw M s1 = Ok s2 ->
    selection (fr s2) = [] ->
    trial_run s (Break s2)
| run_no_fit s1 s2 s3 s4 :
    grow s = Ok (Continue s1) -> draw M s1 = Ok s2 ->
    selection (fr s2) <> [] ->
    estimate M s2 = (false, s3) -> incr_iterations s3 = Ok s4 ->
    trial_run s (Continue s4)
| run_fit s1 s2 s3 s5 s6 :
    grow s = Ok (Continue s1) -> draw M s1 = Ok s2 ->
    selection (fr s2) <> [] ->
    estimate M s2 = (true, s3) ->
    (let s4 := select M s3 in
     let I_N := Vec.size (inliers (fr s4)) in
     if I_N_best (fr s4) <? I_N then improve L I_N s4 else Ok s4) = Ok s5 ->
    incr_iterations s5 = Ok s6 ->
    trial_run s
      (if max_iterations_ (this s6) <? iterations_ (this s6)
       then Break s6 else Continue s6).

End Runs.


(** ** The inliers that the search of [scan] can reach

    [reached m l] is the part of the reversed inlier list [l] that lies
    before the first inlier whose candidate pool size (its index plus
    one, as an [unsigned int]) is at most [m]. *)

Fixpoint reached (m : Z) (l : list Z) : list Z :=
  match l with
  | [] => []
  | x :: rest =>
      if (x <? INT_MAX) && (to_unsigned (x + 1) <=? m) then []
      else x :: reached m rest
  end.

(** ** Models and engines used to run the embedding on concrete data *)

Module Examples.

(** [std::pow] at the exponent one, where it returns its first
    argument; the examples use no other exponent and never reach
    [log] or the binomial quantile. *)
Definition numerics : Numerics :=
  {| powf := fun x y => if feq y (float_of_Z 1) then x else S754_nan;
     log := fun _ => S754_nan;
     binomial_quantile := fun _ => S754_nan |}.

(** The same functions with a binomial quantile that is 1 for every
    argument. *)
Definition unit_quantile : Numerics :=
  {| powf := powf numerics;
     log := log numerics;
     binomial_quantile := fun _ => float_of_Z 1 |}.

(** A model of sample size 3 whose [getSamples] finds no sample. *)
Definition no_samples : SampleConsensusModel unit :=
  {| getSampleSize := 3;
     getSamples := fun ms _ _ => (ms, []);
     computeModelCoefficients := fun ms _ _ mc => (ms, (true, mc));
     selectWithinDistance := fun ms indices _ _ => (ms, indices) |}.

(** A model of sample size 1 that draws the first index of the pool;
    [fits] is the result of every estimate and [all_in] says whether
    every index is an inlier or none is. *)
Definition first_of_pool (fits all_in : bool) : SampleConsensusModel unit :=
  {| getSampleSize := 1;
     getSamples := fun ms indices _ => (ms, firstn 1 indices);
     computeModelCoefficients := fun ms _ _ mc => (ms, (fits, mc));
     selectWithinDistance :=
       fun ms indices _ _ => (ms, if all_in then indices else []) |}.

Definition engine (indices : list Z) (threshold : double)
    (max_iterations : Z) : SampleConsensus unit :=
  {| sac_model_ := tt; indices_ := indices; threshold_ := threshold;
     max_iterations_ := max_iterations; iterations_ := 0;
     inliers_ := []; model_ := []; model_coefficients_ := [];
     calls := [] |}.

(** The threshold 0.5. *)
Definition half : double := S754_finite false 4503599627370496 (-53).

(** An engine that still holds the result of an earlier run: the
    selection 4 with the inliers 1 and 2. *)
Definition used_engine (indices : list Z) (max_iterations : Z)
    : SampleConsensus unit :=
  set_best [1; 2] [4] [] (engine indices half max_iterations).

Definition start (M : SampleConsensusModel unit) (indices : list Z)
    (max_iterations : Z) : state unit :=
  match init M (engine indices half max_iterations) with
  | Ok s => s
  | _ => {| this := engine indices half max_iterations;
            fr := {| T_N := S754_nan; N := 0; m := 0; T_n := S754_nan;
                     T_prime_n := S754_nan; I_N_best := 0; n := S754_nan;
                     n_star := S754_nan; I_n_star := 0;
                     epsilon_n_star := S754_nan; k_n_star := 0;
                     inliers := []; selection := [];
                     model_coefficients := []; index_pool := [] |} |}
  end.

(** The state in which the loop comes to its test after [k] trials
    that went on. *)
Fixpoint after_trials (M : SampleConsensusModel unit) (k : nat)
    (s : state unit) : state unit :=
  match k with
  | O => s
  | S k' =>
      match trial M numerics s with
      | Ok (Continue s') => after_trials M k' s'
      | _ => s
      end
  end.

End Examples.

(** ** Observations on the history of calls *)

(** The number of [getSamples] calls in a history. *)
Fixpoint draws (l : list call) : Z :=
  match l with
  | [] => 0
  | GetSamples _ _ :: rest => 1 + draws rest
  | _ :: rest => draws rest
  end.

(** A [getSamples] call, if [c] is one, was made while the indices of
    the model were the first [k] elements of [full], for some [k]
    between [lo] and [hi]. *)
Definition draws_on_prefix (full : list Z) (lo hi : Z) (c : call) : Prop :=
  match c with
  | GetSamples _ indices =>
      exists k, lo <= k <= hi /\ indices = firstn (Z.to_nat k) full
  | _ => True
  end.

(** * Properties *)

(** ** Machine integers and outcomes *)

Lemma to_unsigned_range z : 0 <= to_unsigned z <= UINT_MAX.
Proof.
  pose proof (Z.mod_pos_bound z (UINT_MAX + 1) eq_refl).
  unfold to_unsigned. lia.
Qed.

Lemma to_unsigned_small z : 0 <= z <= UINT_MAX -> to_unsigned z = z.
Proof. unfold to_unsigned, UINT_MAX. intros. apply Z.mod_small. lia. Qed.

Lemma bind_Ok A B (r : result A) (k : A -> result B) (b : B) :
  bind r k = Ok b -> exists a, r = Ok a /\ k a = Ok b.
Proof. destruct r; simpl; try discriminate. eauto. Qed.

Ltac bind_inv H :=
  let a := fresh "a" in
  let Ha := fresh "H" a in
  apply bind_Ok in H; destruct H as (a & Ha & H).

(** ** [std::sort] *)

Lemma insert_permutation (x : Z) (v : list Z) :
  Permutation (x :: v) (Vec.insert x v).
Proof.
  induction v as [|y v IH]; simpl; [reflexivity|].
  destruct (x <=? y); [reflexivity|].
  rewrite perm_swap. apply perm_skip. exact IH.
Qed.

Lemma sort_permutation (v : list Z) : Permutation v (Vec.sort v).
Proof.
  induction v as [|x v IH]; simpl; [constructor|].
  rewrite <- insert_permutation. apply perm_skip. exact IH.
Qed.

Lemma insert_sorted (x : Z) (v : list Z) :
  Sorted Z.le v -> Sorted Z.le (Vec.insert x v).
Proof.
  induction v as [|y v IH]; intros Hs; simpl.
  - repeat constructor.
  - destruct (Z.leb_spec x y) as [Hle|Hgt].
    + constructor; [assumption|]. constructor. assumption.
    + inversion Hs as [|? ? Hv Hhd]; subst.
      constructor; [apply IH; assumption|].
      destruct v as [|z v]; simpl.
      * constructor. lia.
      * destruct (x <=? z); constructor; [lia|].
        inversion Hhd; assumption.
Qed.

Lemma sort_sorted (v : list Z) : Sorted Z.le (Vec.sort v).
Proof.
  induction v as [|x v IH]; simpl; [constructor|].
  apply insert_sorted. exact IH.
Qed.

(** ** The floats of the integers below [2^24]

    Below [2^24] every integer is a float, and adding one, taking one
    away, comparing and truncating are exact. *)

Lemma iter_xO_value (p k : positive) :
  Zpos (Pos.iter xO p k) = Zpos p * 2 ^ Zpos k.
Proof.
  induction k as [|k IH] using Pos.peano_ind.
  - simpl. lia.
  - rewrite Pos.iter_succ, Pos2Z.inj_succ, Z.pow_succ_r by lia.
    rewrite Pos2Z.inj_xO, IH. lia.
Qed.

Lemma iter_xO_digits (p k : positive) :
  digits2_pos (Pos.iter xO p k) = (digits2_pos p + k)%positive.
Proof.
  induction k as [|k IH] using Pos.peano_ind.
  - simpl. lia.
  - rewrite Pos.iter_succ. simpl. rewrite IH. lia.
Qed.

Lemma digits2_size (p : positive) : digits2_pos p = Pos.size p.
Proof. induction p; simpl; congruence. Qed.

Lemma digits2_bounds (p : positive) :
  2 ^ (Zpos (digits2_pos p) - 1) <= Zpos p < 2 ^ Zpos (digits2_pos p).
Proof.
  rewrite digits2_size.
  pose proof (Pos.size_gt p) as Hgt. pose proof (Pos.size_le p) as Hle.
  apply Pos2Z.pos_lt_pos in Hgt. apply Pos2Z.pos_le_pos in Hle.
  rewrite Pos2Z.inj_pow in Hgt, Hle. rewrite Pos2Z.inj_xO in Hle.
  split; [|exact Hgt].
  replace (Zpos (Pos.size p)) with (Z.succ (Zpos (Pos.size p) - 1)) in Hle by lia.
  rewrite Z.pow_succ_r in Hle by lia.
  change (2 * 1) with 2 in Hle. lia.
Qed.

Lemma iter_pos_iter A (f : A -> A) (k : positive) (x : A) :
  iter_pos f k x = Pos.iter f x k.
Proof.
  revert x. induction k as [k IH|k IH|]; intros x; simpl.
  - rewrite !IH. rewrite <- !Pos.iter_swap. reflexivity.
  - rewrite !IH. reflexivity.
  - reflexivity.
Qed.

Lemma shr_exact (r k : positive) :
  iter_pos shr_1 k
    {| shr_m := Zpos (Pos.iter xO r k); shr_r := false; shr_s := false |}
  = {| shr_m := Zpos r; shr_r := false; shr_s := false |}.
Proof.
  rewrite iter_pos_iter.
  induction k as [|k IH] using Pos.peano_ind.
  - reflexivity.
  - rewrite Pos.iter_succ_r. rewrite Pos.iter_succ. simpl. exact IH.
Qed.

(** Rounding a 24-digit mantissa changes nothing. *)
Lemma shr_fexp_24 (r : positive) (t : Z) :
  digits2_pos r = 24%positive -> -149 <= t ->
  shr_fexp 24 128 (Zpos r) t loc_Exact
  = ({| shr_m := Zpos r; shr_r := false; shr_s := false |}, t).
Proof.
  intros Hd Ht. unfold shr_fexp, fexp, emin.
  cbn [Zdigits2 shr_record_of_loc]. rewrite Hd.
  replace (Z.max (24 + t - 24) (3 - 128 - 24) - t) with 0 by lia.
  reflexivity.
Qed.

Lemma round_aux_24 (r : positive) (t : Z) :
  digits2_pos r = 24%positive -> -149 <= t <= 104 ->
  binary_round_aux 24 128 false (Zpos r) t loc_Exact = S754_finite false r t.
Proof.
  intros Hd Ht. unfold binary_round_aux.
  rewrite shr_fexp_24 by (assumption || lia).
  cbn [shr_m loc_of_shr_record round_nearest_even].
  rewrite shr_fexp_24 by (assumption || lia).
  cbn [shr_m].
  destruct (Z.leb_spec t (128 - 24)); [reflexivity|lia].
Qed.

Lemma round_aux_shr (r j : positive) (t : Z) :
  digits2_pos r = 24%positive -> -149 <= t <= 104 ->
  binary_round_aux 24 128 false (Zpos (Pos.iter xO r j)) (t - Zpos j) loc_Exact
  = S754_finite false r t.
Proof.
  intros Hd Ht.
  pose proof (@round_aux_24 r t Hd Ht) as H24.
  unfold binary_round_aux in *. rewrite shr_fexp_24 in H24 by (assumption || lia).
  assert (shr_fexp 24 128 (Zpos (Pos.iter xO r j)) (t - Zpos j) loc_Exact
          = ({| shr_m := Zpos r; shr_r := false; shr_s := false |}, t)) as ->.
  { unfold shr_fexp, fexp, emin. cbn [Zdigits2 shr_record_of_loc].
    rewrite iter_xO_digits, Hd.
    replace (Z.max (Zpos (24 + j) + (t - Zpos j) - 24) (3 - 128 - 24) - (t - Zpos j))
      with (Zpos j) by lia.
    cbn [shr]. rewrite shr_exact.
    replace (t - Zpos j + Zpos j) with t by lia. reflexivity. }
  exact H24.
Qed.

(** [binary_round] on a mantissa that is a 24-digit number [r] scaled
    by a power of two. *)
Lemma binary_round_canonical (mx : positive) (ex : Z) (r : positive) (t : Z) :
  digits2_pos r = 24%positive -> -149 <= t <= 104 ->
  (t <= ex /\ Zpos r = Zpos mx * 2 ^ (ex - t)) \/
  (ex < t /\ Zpos mx = Zpos r * 2 ^ (t - ex)) ->
  binary_round 24 128 false mx ex = S754_finite false r t.
Proof.
  intros Hd Ht Hrel. unfold binary_round.
  destruct Hrel as [[Hle Hv] | [Hlt Hv]].
  - destruct (Z.eq_dec t ex) as [->|Hne].
    + assert (r = mx) as -> by (rewrite Z.sub_diag in Hv; simpl in Hv; lia).
      unfold fexp, emin, shl_align. rewrite Hd.
      replace (Z.max (24 + ex - 24) (3 - 128 - 24) - ex) with 0 by lia.
      apply round_aux_24; assumption.
    + destruct (ex - t) as [|k|k] eqn:Ek; try lia.
      assert (r = Pos.iter xO mx k) as ->
        by (apply Pos2Z.inj; rewrite iter_xO_value; exact Hv).
      rewrite iter_xO_digits in Hd.
      unfold fexp, emin, shl_align.
      assert (Zpos (digits2_pos mx) = 24 - Zpos k) as -> by lia.
      replace (Z.max (24 - Zpos k + ex - 24) (3 - 128 - 24) - ex) with (Zneg k) by lia.
      replace (Z.max (24 - Zpos k + ex - 24) (3 - 128 - 24)) with t by lia.
      apply round_aux_24; [rewrite iter_xO_digits|]; assumption.
  - destruct (t - ex) as [|j|j] eqn:Ej; try lia.
    assert (mx = Pos.iter xO r j) as ->
      by (apply Pos2Z.inj; rewrite iter_xO_value; exact Hv).
    unfold fexp, emin, shl_align. rewrite iter_xO_digits, Hd.
    replace (Z.max (Zpos (24 + j) + ex - 24) (3 - 128 - 24) - ex) with (Zpos j) by lia.
    replace ex with (t - Zpos j) by lia.
    apply round_aux_shr; assumption.
Qed.

Lemma binary_round_int (v : Z) (x : spec_float) (mx : positive) (ex : Z) :
  int_float v x -> ex <= 0 -> Zpos mx = v * 2 ^ (- ex) ->
  binary_round 24 128 false mx ex = x.
Proof.
  intros (r & t & -> & Hd & Ht & Hv) Hex Hmx.
  apply binary_round_canonical; [assumption|lia|].
  destruct (Z.le_gt_cases t ex) as [Hle|Hgt].
  - left. split; [assumption|].
    rewrite Hv, Hmx, <- Z.mul_assoc, <- Z.pow_add_r by lia.
    f_equal. f_equal. lia.
  - right. split; [assumption|].
    rewrite Hv, Hmx, <- Z.mul_assoc, <- Z.pow_add_r by lia.
    f_equal. f_equal. lia.
Qed.

Lemma float_of_pos (q : positive) :
  Zpos q < 2 ^ 24 -> int_float (Zpos q) (float_of_Z (Zpos q)).
Proof.
  intros Hq. pose proof (digits2_bounds q) as [Hlo Hhi].
  assert (Zpos (digits2_pos q) <= 24) as Hd.
  { destruct (Z.le_gt_cases (Zpos (digits2_pos q)) 24) as [|Hgt]; [assumption|].
    assert (2 ^ 24 <= 2 ^ (Zpos (digits2_pos q) - 1))
      by (apply Z.pow_le_mono_r; lia).
    lia. }
  assert (exists r, Zpos r = Zpos q * 2 ^ (24 - Zpos (digits2_pos q)) /\
                    digits2_pos r = 24%positive) as (r & Hr & Hdr).
  { destruct (24 - Zpos (digits2_pos q)) as [|k|k] eqn:Ek; try lia.
    - exists q. split; [simpl; lia|]. lia.
    - exists (Pos.iter xO q k). split; [apply iter_xO_value|].
      rewrite iter_xO_digits. lia. }
  assert (int_float (Zpos q) (S754_finite false r (Zpos (digits2_pos q) - 24))) as Hint.
  { exists r, (Zpos (digits2_pos q) - 24). repeat split; try assumption; try lia.
    rewrite Hr. f_equal. f_equal. lia. }
  unfold float_of_Z, binary_normalize.
  rewrite (@binary_round_int (Zpos q) _ q 0 Hint); [assumption|lia|simpl; lia].
Qed.

Lemma shl_align_value (mx : positive) (ex ex' : Z) :
  ex' <= ex -> Zpos (fst (shl_align mx ex ex')) = Zpos mx * 2 ^ (ex - ex').
Proof.
  intros Hle. unfold shl_align.
  destruct (ex' - ex) as [|d|d] eqn:Ed; try lia.
  - replace (ex - ex') with 0 by lia. cbn [fst]. lia.
  - cbn [fst]. rewrite iter_xO_value. f_equal. f_equal. lia.
Qed.

Lemma float_one : float_of_Z 1 = S754_finite false 8388608 (-23).
Proof. reflexivity. Qed.

Lemma float_zero : float_of_Z 0 = S754_zero false.
Proof. reflexivity. Qed.

Lemma int_float_succ (v : Z) (x : spec_float) :
  int_float v x -> 0 < v -> v + 1 < 2 ^ 24 ->
  fadd x (float_of_Z 1) = float_of_Z (v + 1).
Proof.
  intros (r & t & -> & Hd & Ht & Hv) Hv0 Hv1.
  rewrite float_one. unfold fadd, SFadd.
  replace (Z.min t (-23)) with (-23) by lia.
  cbn [cond_Zopp].
  pose proof (@shl_align_value r t (-23)) as Hr.
  pose proof (@shl_align_value 8388608 (-23) (-23)) as H1.
  destruct (v + 1) as [|q|q] eqn:Eq; try lia.
  destruct (Zpos (fst (shl_align r t (-23))) +
            Zpos (fst (shl_align 8388608 (-23) (-23)))) as [|mx|mx] eqn:Es; try lia.
  cbn [binary_normalize].
  apply binary_round_int with (v := Zpos q); [|lia|].
  - apply float_of_pos. lia.
  - rewrite <- Es, Hr, H1, Hv by lia.
    rewrite <- Z.mul_assoc, <- Z.pow_add_r by lia.
    replace (- t + (t - -23)) with 23 by lia.
    replace (-23 - -23) with 0 by lia.
    replace (- -23) with 23 by lia. lia.
Qed.

Lemma int_float_pred (v : Z) (x : spec_float) :
  int_float v x -> 0 < v -> v < 2 ^ 24 ->
  fsub x (float_of_Z 1) = float_of_Z (v - 1).
Proof.
  intros (r & t & -> & Hd & Ht & Hv) Hv0 Hv1.
  rewrite float_one. unfold fsub, SFsub.
  replace (Z.min t (-23)) with (-23) by lia.
  cbn [cond_Zopp].
  pose proof (@shl_align_value r t (-23)) as Hr.
  pose proof (@shl_align_value 8388608 (-23) (-23)) as H1.
  assert (Zpos (fst (shl_align r t (-23))) -
          Zpos (fst (shl_align 8388608 (-23) (-23))) = (v - 1) * 2 ^ 23) as Es.
  { rewrite Hr, H1, Hv by lia.
    rewrite <- Z.mul_assoc, <- Z.pow_add_r by lia.
    replace (- t + (t - -23)) with 23 by lia.
    replace (-23 - -23) with 0 by lia. lia. }
  rewrite Es.
  destruct (v - 1) as [|q|q] eqn:Eq; try lia.
  - reflexivity.
  - assert (Zpos q * 2 ^ 23 = Zpos (q * 2 ^ 23)) as -> by lia.
    cbn [binary_normalize].
    apply binary_round_int with (v := Zpos q); [|lia|].
    + apply float_of_pos. lia.
    + replace (- -23) with 23 by lia. lia.
Qed.

Lemma digits_24_bounds (r : positive) :
  digits2_pos r = 24%positive -> 2 ^ 23 <= Zpos r < 2 ^ 24.
Proof.
  intros Hd. pose proof (digits2_bounds r) as H. rewrite Hd in H. exact H.
Qed.

Lemma int_float_lt_exp (a b : Z) (r1 r2 : positive) (t1 t2 : Z) :
  2 ^ 23 <= Zpos r1 < 2 ^ 24 -> 2 ^ 23 <= Zpos r2 < 2 ^ 24 ->
  t1 <= 0 -> t2 <= 0 ->
  Zpos r1 = a * 2 ^ (- t1) -> Zpos r2 = b * 2 ^ (- t2) ->
  t1 < t2 -> a < b.
Proof.
  intros H1 H2 Ht1 Ht2 Ha Hb Hlt.
  assert (2 ^ (- t1) = 2 ^ (- t2) * 2 ^ (t2 - t1)) as Hsplit
    by (rewrite <- Z.pow_add_r by lia; f_equal; lia).
  assert (2 <= 2 ^ (t2 - t1)) as HD
    by (change 2 with (2 ^ 1) at 1; apply Z.pow_le_mono_r; lia).
  assert (0 < 2 ^ (- t2)) as HP by (apply Z.pow_pos_nonneg; lia).
  rewrite Hsplit in Ha.
  destruct (Z.lt_ge_cases a b) as [|Hge]; [assumption|exfalso].
  assert (b * 2 ^ (- t2) <= a * 2 ^ (- t2)) as Hm
    by (apply Z.mul_le_mono_nonneg_r; lia).
  nia.
Qed.

Lemma mul_compare_r (a b p : Z) : 0 < p -> (a * p ?= b * p) = (a ?= b).
Proof.
  intros Hp. destruct (Z.compare_spec a b) as [->|Hlt|Hgt].
  - apply Z.compare_refl.
  - apply Z.compare_lt_iff. apply Z.mul_lt_mono_pos_r; assumption.
  - apply Z.compare_gt_iff. apply Z.mul_lt_mono_pos_r; assumption.
Qed.

Lemma int_float_compare (a b : Z) (x y : spec_float) :
  int_float a x -> int_float b y -> SFcompare x y = Some (a ?= b).
Proof.
  intros (r1 & t1 & -> & Hd1 & Ht1 & Ha) (r2 & t2 & -> & Hd2 & Ht2 & Hb).
  apply digits_24_bounds in Hd1, Hd2.
  cbn [SFcompare]. f_equal.
  destruct (Z.compare_spec t1 t2) as [->|Hlt|Hgt].
  - change (Pos.compare_cont Eq r1 r2) with (Zpos r1 ?= Zpos r2).
    rewrite Ha, Hb. apply mul_compare_r. apply Z.pow_pos_nonneg; lia.
  - symmetry. apply Z.compare_lt_iff.
    eapply int_float_lt_exp with (r1 := r1) (r2 := r2); eauto; lia.
  - symmetry. apply Z.compare_gt_iff.
    eapply int_float_lt_exp with (r1 := r2) (r2 := r1); eauto; lia.
Qed.

Lemma int_float_truncate (v : Z) (x : spec_float) :
  int_float v x -> truncate x = Some v.
Proof.
  intros (r & t & -> & Hd & Ht & Hv). unfold truncate. f_equal.
  destruct t as [|p|p]; try lia.
  - simpl in *. lia.
  - rewrite Z.shiftr_div_pow2 by lia. rewrite Hv.
    change (- Zneg p) with (Zpos p). apply Z.div_mul.
    apply Z.pow_nonzero; lia.
Qed.

(** The floats of the integers below [2^24]. *)
Lemma compare_int (a b : Z) :
  0 <= a < 2 ^ 24 -> 0 <= b < 2 ^ 24 ->
  SFcompare (float_of_Z a) (float_of_Z b) = Some (a ?= b).
Proof.
  intros Ha Hb.
  destruct a as [|p|p]; destruct b as [|q|q]; try lia.
  - reflexivity.
  - pose proof (@float_of_pos q (proj2 Hb)) as (r & t & -> & _). reflexivity.
  - pose proof (@float_of_pos p (proj2 Ha)) as (r & t & -> & _). reflexivity.
  - apply int_float_compare; apply float_of_pos; lia.
Qed.

Lemma flt_int (a b : Z) :
  0 <= a < 2 ^ 24 -> 0 <= b < 2 ^ 24 ->
  flt (float_of_Z a) (float_of_Z b) = (a <? b).
Proof.
  intros Ha Hb. unfold flt, SFltb, Z.ltb. rewrite compare_int by assumption.
  reflexivity.
Qed.

Lemma fle_int (a b : Z) :
  0 <= a < 2 ^ 24 -> 0 <= b < 2 ^ 24 ->
  fle (float_of_Z a) (float_of_Z b) = (a <=? b).
Proof.
  intros Ha Hb. unfold fle, SFleb, Z.leb. rewrite compare_int by assumption.
  destruct (a ?= b); reflexivity.
Qed.

Lemma fadd_int (a : Z) :
  0 <= a -> a + 1 < 2 ^ 24 ->
  fadd (float_of_Z a) (float_of_Z 1) = float_of_Z (a + 1).
Proof.
  intros Ha Hb. destruct a as [|p|p]; try lia.
  - reflexivity.
  - apply int_float_succ with (v := Zpos p); [apply float_of_pos| |]; lia.
Qed.

Lemma fsub_int (a : Z) :
  1 <= a < 2 ^ 24 ->
  fsub (float_of_Z a) (float_of_Z 1) = float_of_Z (a - 1).
Proof.
  intros Ha. destruct a as [|p|p]; try lia.
  apply int_float_pred with (v := Zpos p); [apply float_of_pos| |]; lia.
Qed.

Lemma to_size_t_int (a : Z) :
  0 <= a < 2 ^ 24 -> to_size_t (float_of_Z a) = Ok a.
Proof.
  intros Ha. unfold to_size_t, to_integer.
  assert (truncate (float_of_Z a) = Some a) as ->.
  { destruct a as [|p|p]; try lia; [reflexivity|].
    apply int_float_truncate, float_of_pos. lia. }
  destruct (Z.leb_spec 0 a); [|lia].
  destruct (Z.leb_spec a SIZE_MAX); [reflexivity|].
  unfold SIZE_MAX in *. lia.
Qed.

(** ** The phases of a trial *)

Section Phases.

Variable MS : Type.
Variable M : SampleConsensusModel MS.
Variable L : Numerics.

Implicit Types s : state MS.

Lemma set_pool_same (f : frame) :
  set_pool (n f) (T_n f) (T_prime_n f) (index_pool f) f = f.
Proof. destruct f; reflexivity. Qed.

Lemma grow_shape s g :
  grow s = Ok g ->
  this (state_of g) = this s /\
  exists n' T' T'' pool, fr (state_of g) = set_pool n' T' T'' pool (fr s).
Proof.
  unfold grow. intros H.
  destruct (feq _ _ && flt _ _).
  - destruct (fle _ _).
    + inversion H; subst; simpl. split; [reflexivity|].
      unfold set_n. eauto.
    + bind_inv H. bind_inv H. inversion H; subst; simpl.
      split; [reflexivity|]. eauto.
  - inversion H; subst; simpl. split; [reflexivity|].
    exists (n (fr s)), (T_n (fr s)), (T_prime_n (fr s)), (index_pool (fr s)).
    symmetry. apply set_pool_same.
Qed.

Lemma draw_shape s s' :
  draw M s = Ok s' ->
  exists ms sel,
    this s' =
      model_called ms (GetSamples (iterations_ (this s)) (index_pool (fr s)))
        (this s) /\
    fr s' = set_selection sel (fr s).
Proof.
  unfold draw. simpl.
  destruct (getSamples M _ _ _) as [ms sel]. intros H.
  bind_inv H. inversion H; subst; simpl.
  exists ms, a. split; reflexivity.
Qed.

Lemma estimate_shape s ok s' :
  estimate M s = (ok, s') ->
  exists ms mc,
    this s' = model_called ms (ComputeModelCoefficients (selection (fr s))) (this s) /\
    fr s' = set_model_coefficients mc (fr s).
Proof.
  unfold estimate.
  destruct (computeModelCoefficients M _ _ _ _) as [ms [ok' mc]].
  intros H; inversion H; subst; simpl. eauto.
Qed.

Lemma select_shape s :
  exists ms found,
    this (select M s) =
      model_called ms
        (SelectWithinDistance (indices_ (this s)) (model_coefficients (fr s))
           (threshold_ (this s)))
        (this s) /\
    fr (select M s) = set_inliers found (fr s).
Proof.
  unfold select.
  destruct (selectWithinDistance M _ _ _ _) as [ms found]. simpl. eauto.
Qed.

Lemma improve_shape I_N s s' :
  improve L I_N s = Ok s' ->
  this s' =
    set_best (inliers (fr s)) (selection (fr s)) (model_coefficients (fr s))
      (this s) /\
  exists eps k,
    fr s' =
      set_budget eps k
        (set_inliers (Vec.sort (inliers (fr s))) (set_I_N_best I_N (fr s))).
Proof.
  unfold improve. intros H. bind_inv H.
  destruct (flt _ _).
  - bind_inv H. inversion H; subst; simpl. eauto.
  - inversion H; subst; simpl. split; [reflexivity|].
    exists (epsilon_n_star (fr s)), (k_n_star (fr s)). reflexivity.
Qed.

Lemma incr_shape s s' :
  incr_iterations s = Ok s' ->
  iterations_ (this s) < INT_MAX /\
  s' = on_this (set_iterations_ (iterations_ (this s) + 1)) s.
Proof.
  unfold incr_iterations.
  destruct (Z.ltb_spec (iterations_ (this s)) INT_MAX) as [Hlt|Hge];
    intros H; inversion H; auto.
Qed.

Lemma trial_inv s r : trial M L s = Ok r -> trial_run M L s r.
Proof.
  unfold trial. intros H. bind_inv H. destruct a as [s1|s'].
  - bind_inv H. rename a into s2.
    destruct (selection (fr s2)) eqn:Hsel; simpl in H.
    + inversion H; subst. eapply run_no_samples; eauto.
    + destruct (estimate M s2) as [ok s3] eqn:Hest.
      destruct ok; simpl in H.
      * bind_inv H. bind_inv H. rename a into s5, a0 into s6.
        assert (r = if max_iterations_ (this s6) <? iterations_ (this s6)
                    then Break s6 else Continue s6) as ->.
        { destruct (max_iterations_ (this s6) <? iterations_ (this s6));
            inversion H; reflexivity. }
        eapply run_fit; eauto. rewrite Hsel; discriminate.
      * bind_inv H. inversion H; subst.
        eapply run_no_fit; eauto. rewrite Hsel; discriminate.
  - inversion H; subst. apply run_pool_full; assumption.
Qed.

End Phases.

(** Every phase is opened into the assignments it makes. *)
Ltac open_phases :=
  repeat match goal with
  | H : grow _ = Ok _ |- _ =>
      apply grow_shape in H; simpl in H; destruct H as (? & ? & ? & ? & ? & ?)
  | H : draw _ _ = Ok _ |- _ =>
      apply draw_shape in H; destruct H as (? & ? & ? & ?)
  | H : estimate _ _ = (_, _) |- _ =>
      apply estimate_shape in H; destruct H as (? & ? & ? & ?)
  | H : improve _ _ _ = Ok _ |- _ =>
      apply improve_shape in H; destruct H as (? & ? & ? & ?)
  | H : incr_iterations _ = Ok _ |- _ =>
      apply incr_shape in H; destruct H as (? & ?); subst
  end.

Ltac trace_back :=
  repeat match goal with H : iterations_ _ < INT_MAX |- _ => revert H end;
  simpl;
  repeat (match goal with
          | H : this ?x = _ |- context [this ?x] => rewrite H
          | H : fr ?x = _ |- context [fr ?x] => rewrite H
          end; simpl).

(** ** What a trial keeps and what it changes *)

Section Trials.

Variable MS : Type.
Variable M : SampleConsensusModel MS.
Variable L : Numerics.

Implicit Types s : state MS.

Lemma fit_cases s3 s5 :
  (let s4 := select M s3 in
   let I_N := Vec.size (inliers (fr s4)) in
   if I_N_best (fr s4) <? I_N then improve L I_N s4 else Ok s4) = Ok s5 ->
  s5 = select M s3 \/
  (I_N_best (fr (select M s3)) < Vec.size (inliers (fr (select M s3))) /\
   improve L (Vec.size (inliers (fr (select M s3)))) (select M s3) = Ok s5).
Proof.
  simpl.
  destruct (Z.ltb_spec (I_N_best (fr (select M s3)))
              (Vec.size (inliers (fr (select M s3))))) as [Hlt|Hge];
    intros H.
  - right; auto.
  - left; congruence.
Qed.

Lemma trial_fixed s r : trial M L s = Ok r -> fixed (state_of r) = fixed s.
Proof.
  intros H. apply trial_inv in H. unfold fixed.
  destruct H as [s' Hg | s1 s2 Hg Hd Hsel | s1 s2 s3 s4 Hg Hd Hsel He Hi
                | s1 s2 s3 s5 s6 Hg Hd Hsel He Hf Hi].
  - open_phases. trace_back. reflexivity.
  - open_phases. simpl. trace_back. reflexivity.
  - open_phases. simpl. trace_back. reflexivity.
  - destruct (select_shape M s3) as (ms & found & Hs1 & Hs2).
    apply fit_cases in Hf. destruct Hf as [-> | [_ Hf]];
      open_phases;
      destruct (_ <? _); simpl; trace_back; reflexivity.
Qed.

Lemma at_head_fixed s0 s : at_head M L s0 s -> fixed s = fixed s0.
Proof.
  induction 1 as [|s s' _ IH _ Ht]; [reflexivity|].
  apply trial_fixed in Ht. simpl in Ht. congruence.
Qed.

Lemma state_of_cap (c : bool) s :
  state_of (if c then Break s else Continue s) = s.
Proof. destruct c; reflexivity. Qed.

(** A pass that continues has added one to the trial counter. *)
Lemma continue_counts s s' :
  trial M L s = Ok (Continue s') ->
  iterations_ (this s') = iterations_ (this s) + 1 /\
  iterations_ (this s) < INT_MAX.
Proof.
  intros H. apply trial_inv in H.
  remember (Continue s') as r eqn:Hr.
  destruct H as [s'' Hg | s1 s2 Hg Hd Hsel | s1 s2 s3 s4 Hg Hd Hsel He Hi
                | s1 s2 s3 s5 s6 Hg Hd Hsel He Hf Hi];
    try discriminate.
  - inversion Hr; subst. open_phases. trace_back. lia.
  - assert (s' = s6) as -> by (destruct (_ <? _); congruence). clear Hr.
    destruct (select_shape M s3) as (ms & found & Hs1 & Hs2).
    apply fit_cases in Hf. destruct Hf as [-> | [_ Hf]];
      open_phases; trace_back; lia.
Qed.

Lemma loop_exits fuel s0 s : loop M L fuel s0 = Ok s -> exits M L s0 s.
Proof.
  enough (forall fuel s1, at_head M L s0 s1 -> loop M L fuel s1 = Ok s ->
                          exits M L s0 s) as G
      by (apply G; constructor).
  clear fuel. intros fuel. induction fuel as [|fuel IH]; intros s1 Hh; simpl.
  - destruct (Z.ltb_spec (to_unsigned (iterations_ (this s1))) (k_n_star (fr s1)))
      as [Hlt|Hge]; intros H; [discriminate|].
    inversion H; subst. apply exit_test; [assumption|unfold in_budget; lia].
  - destruct (Z.ltb_spec (to_unsigned (iterations_ (this s1))) (k_n_star (fr s1)))
      as [Hlt|Hge]; intros H.
    + bind_inv H. destruct a as [s'|s'].
      * apply IH with (s1 := s'); [|assumption].
        eapply head_next; eauto.
      * inversion H; subst. eapply exit_break; eauto.
    + inversion H; subst. apply exit_test; [assumption|unfold in_budget; lia].
Qed.

(** Only the loop itself can run out of fuel. *)
Lemma bind_fuel A B (r : result A) (k : A -> result B) :
  r <> OutOfFuel -> (forall a, k a <> OutOfFuel) -> bind r k <> OutOfFuel.
Proof. destruct r; simpl; intros Hr Hk; [apply Hk|discriminate..|now elim Hr]. Qed.

Lemma to_integer_fuel lo hi x : to_integer lo hi x <> OutOfFuel.
Proof.
  unfold to_integer. destruct (truncate x); [|discriminate].
  destruct (_ && _); discriminate.
Qed.

Lemma at_fuel v i : Vec.at_ v i <> OutOfFuel.
Proof. unfold Vec.at_. destruct (nth_error _ _); discriminate. Qed.

Lemma grow_fuel s : grow s <> OutOfFuel.
Proof.
  unfold grow. destruct (_ && _); [|discriminate].
  destruct (fle _ _); [discriminate|].
  apply bind_fuel; [apply to_integer_fuel|intros i].
  apply bind_fuel; [apply at_fuel|discriminate].
Qed.

Lemma draw_fuel s : draw M s <> OutOfFuel.
Proof.
  unfold draw. destruct (getSamples M _ _ _) as [ms sel].
  apply bind_fuel; [|discriminate].
  destruct (flt _ _); [|discriminate].
  apply bind_fuel; [destruct sel; discriminate|intros popped].
  apply bind_fuel; [apply to_integer_fuel|intros i].
  apply bind_fuel; [apply at_fuel|discriminate].
Qed.

Lemma scan_fuel m eps l c : scan L m eps l c <> OutOfFuel.
Proof.
  revert c. induction l as [|x l IH]; intros c; simpl; [discriminate|].
  destruct (_ <? _); [|discriminate].
  destruct (_ <=? _); [discriminate|].
  destruct (_ && _); [|apply IH].
  apply bind_fuel; [apply to_integer_fuel|intros i].
  destruct (_ <? _); [discriminate|apply IH].
Qed.

Lemma new_k_n_star_fuel T m eps : new_k_n_star L T m eps <> OutOfFuel.
Proof.
  unfold new_k_n_star. apply bind_fuel; [|discriminate].
  destruct (feq _ _); [discriminate|].
  destruct (feq _ _); [apply to_integer_fuel|].
  apply bind_fuel; [apply to_integer_fuel|discriminate].
Qed.

Lemma improve_fuel I_N s : improve L I_N s <> OutOfFuel.
Proof.
  unfold improve. apply bind_fuel; [apply scan_fuel|intros c].
  destruct (flt _ _); [|discriminate].
  apply bind_fuel; [apply new_k_n_star_fuel|discriminate].
Qed.

Lemma incr_fuel s : incr_iterations s <> OutOfFuel.
Proof. unfold incr_iterations. destruct (_ <? _); discriminate. Qed.

Lemma trial_fuel s : trial M L s <> OutOfFuel.
Proof.
  unfold trial. apply bind_fuel; [apply grow_fuel|intros [s1|s1]];
    [|discriminate].
  apply bind_fuel; [apply draw_fuel|intros s2].
  destruct (Vec.empty _); [discriminate|].
  destruct (estimate M s2) as [[] s3]; simpl.
  - apply bind_fuel.
    + destruct (_ <? _); [apply improve_fuel|discriminate].
    + intros s5. apply bind_fuel; [apply incr_fuel|intros s6].
      destruct (_ <? _); discriminate.
  - apply bind_fuel; [apply incr_fuel|discriminate].
Qed.

(** The loop ends: every pass that continues adds one to the counter,
    and the counter cannot pass [INT_MAX]. *)
Lemma loop_ends fuel s :
  iterations_ (this s) <= INT_MAX ->
  INT_MAX - iterations_ (this s) < Z.of_nat fuel ->
  loop M L fuel s <> OutOfFuel.
Proof.
  revert s. induction fuel as [|fuel IH]; intros s Hi Hf; simpl.
  - exfalso. lia.
  - destruct (_ <? _); [|discriminate].
    destruct (trial M L s) as [r| | |] eqn:Ht; simpl; try discriminate.
    + destruct r as [s'|s']; [|discriminate].
      apply continue_counts in Ht. destruct Ht as [Hs' Hlt].
      apply IH; lia.
    + exfalso. exact (trial_fuel _ Ht).
Qed.

End Trials.

(** ** The threshold test *)

Section Threshold.

Variable MS : Type.
Variable M : SampleConsensusModel MS.
Variable L : Numerics.

(** C3.  The engine tells that no threshold was set by the value
    [DBL_MAX] of [threshold_].  In that state [computeModel] returns
    [false] and nothing else happens: the object is the one it was
    given, so the trial counter is not reset, the stored best result is
    not touched and the history of calls on the model is unchanged (no
    [getSamples], no [computeModelCoefficients], no
    [selectWithinDistance]).  This holds for every bound on the loop,
    the bound zero included: the loop is never entered. *)
Theorem unset_threshold_fails_before_sampling
    (fuel : nat) (e : SampleConsensus MS) :
  threshold_ e = DBL_MAX ->
  computeModel M L fuel e = Ok (false, e).
Proof. unfold computeModel. intros ->. reflexivity. Qed.

(** C10.  The only test is [threshold_ == DBL_MAX].  A threshold that
    the caller stored with [setDistanceThreshold (DBL_MAX)] and that
    reached the engine passes this test like the value of the unset
    state, and the run fails as it does in that state: [false] is
    returned and the object is untouched.  A threshold that does not
    compare equal to [DBL_MAX] is never rejected here. *)
Theorem explicit_DBL_MAX_fails_as_unset
    (fuel : nat) (c : Segmentation.SACSegmentation) (e : SampleConsensus MS) :
  threshold_ e =
    Segmentation.getDistanceThreshold
      (Segmentation.setDistanceThreshold DBL_MAX c) ->
  feq (threshold_ e) DBL_MAX = true /\
  computeModel M L fuel e = Ok (false, e) /\
  (forall e' : SampleConsensus MS,
      feq (threshold_ e') DBL_MAX = true ->
      computeModel M L fuel e' = Ok (false, e')) /\
  (forall e' : SampleConsensus MS,
      feq (threshold_ e') DBL_MAX = false ->
      computeModel M L fuel e' =
        (s0 <- init M e';;
         s <- loop M L fuel s0;;
         if Vec.empty (model_ (this s))
         then Ok (false, set_inliers_ [] (this s))
         else Ok (true, this s))).
Proof.
  simpl. intros H. unfold computeModel. rewrite H.
  repeat split; try reflexivity; intros e' ->; reflexivity.
Qed.

End Threshold.

Lemma unset_threshold_fails_before_sampling_witness :
  computeModel Examples.no_samples Examples.numerics 0
    (Examples.engine [0; 1; 2] DBL_MAX 50)
  = Ok (false, Examples.engine [0; 1; 2] DBL_MAX 50).
Proof.
  apply unset_threshold_fails_before_sampling. reflexivity.
Defined.

Lemma explicit_DBL_MAX_fails_as_unset_witness :
  computeModel Examples.no_samples Examples.numerics 7
    (Examples.engine [0; 1; 2] DBL_MAX 50)
  = Ok (false, Examples.engine [0; 1; 2] DBL_MAX 50).
Proof.
  pose proof (@explicit_DBL_MAX_fails_as_unset unit Examples.no_samples
           Examples.numerics 7
           {| Segmentation.model_type_ := 0; Segmentation.method_type_ := 0;
              Segmentation.threshold_ := Examples.half;
              Segmentation.optimize_coefficients_ := true;
              Segmentation.radius_min_ := S754_infinity true;
              Segmentation.radius_max_ := S754_infinity false;
              Segmentation.eps_angle_ := S754_zero false;
              Segmentation.max_iterations_ := 50;
              Segmentation.probability_ := Examples.half |}
           (Examples.engine [0; 1; 2] DBL_MAX 50) eq_refl) as (_ & H & _).
  exact H.
Defined.

(** ** The calls made by a trial *)

Section Calls.

Variable MS : Type.
Variable M : SampleConsensusModel MS.
Variable L : Numerics.

Implicit Types s : state MS.

(** The two swaps of [draw] cancel. *)
Lemma draw_restores s s' :
  draw M s = Ok s' ->
  indices_ (this s') = indices_ (this s) /\
  index_pool (fr s') = index_pool (fr s).
Proof.
  intros H. open_phases. split; trace_back; reflexivity.
Qed.

(** A trial stops at the pool test without a call, or it draws once on
    the pool and then makes at most one estimate and one selection of
    inliers, the latter on the indices the trial started with. *)
Lemma trial_calls s r :
  trial M L s = Ok r ->
  (exists s', grow s = Ok (Break s') /\ r = Break s' /\
              calls (this s') = calls (this s)) \/
  (exists more,
      calls (this (state_of r)) =
        more ++
        GetSamples (iterations_ (this s)) (index_pool (fr (state_of r)))
        :: calls (this s) /\
      Forall (selects_on (indices_ (this s))) more /\
      Forall (samples_on []) more).
Proof.
  intros H. apply trial_inv in H.
  destruct H as [s' Hg | s1 s2 Hg Hd Hsel | s1 s2 s3 s4 Hg Hd Hsel He Hi
                | s1 s2 s3 s5 s6 Hg Hd Hsel He Hf Hi].
  - left. exists s'. repeat split; auto.
    open_phases. trace_back. reflexivity.
  - right. exists []. open_phases. repeat split; auto. trace_back. reflexivity.
  - right. exists [ComputeModelCoefficients (selection (fr s2))].
    open_phases. repeat split.
    + trace_back. reflexivity.
    + repeat constructor.
    + repeat constructor.
  - right. rewrite state_of_cap.
    destruct (select_shape M s3) as (ms & found & Hs1 & Hs2).
    exists [SelectWithinDistance (indices_ (this s3)) (model_coefficients (fr s3))
              (threshold_ (this s3));
            ComputeModelCoefficients (selection (fr s2))].
    apply fit_cases in Hf. destruct Hf as [-> | [_ Hf]]; open_phases;
      (repeat split;
       [ trace_back; reflexivity
       | constructor; [trace_back; reflexivity | repeat constructor]
       | repeat constructor ]).
Qed.

(** The first trial of a run is always entered, and it does not start
    with a growth of the pool. *)
Lemma init_shape (e : SampleConsensus MS) s0 :
  init M e = Ok s0 ->
  this s0 = set_iterations_ 0 e /\
  T_prime_n (fr s0) = float_of_Z 1 /\
  k_n_star (fr s0) = 200000 /\
  I_N_best (fr s0) = 0 /\
  T_N (fr s0) = float_of_Z 200000 /\
  N (fr s0) = Vec.size (indices_ e) /\
  m (fr s0) = to_unsigned (getSampleSize M) /\
  n (fr s0) = float_of_Z (m (fr s0)) /\
  n_star (fr s0) = float_of_Z (N (fr s0)).
Proof.
  unfold init. intros H. bind_inv H. bind_inv H.
  inversion H; subst; simpl.
  vm_compute in Ha. inversion Ha; subst.
  repeat split; reflexivity.
Qed.

Lemma first_trial_entered (e : SampleConsensus MS) s0 :
  init M e = Ok s0 -> in_budget s0 /\ grow s0 = Ok (Continue s0).
Proof.
  intros H. apply init_shape in H.
  destruct H as (Ht & HT & Hk & _). split.
  - unfold in_budget. rewrite Ht, Hk. simpl. reflexivity.
  - unfold grow. rewrite Ht, HT. simpl. reflexivity.
Qed.

End Calls.

(** ** Trials without a sample, and the cap on the trials *)

Section Stops.

Variable MS : Type.
Variable M : SampleConsensusModel MS.
Variable L : Numerics.

Implicit Types s : state MS.

(** C1, as the code has it.  When the selection of a trial is empty
    at the test that follows the sampling, the trial ends the loop
    ([break]): the trial counter is not advanced, the stored best
    result and its count are kept, the only call of the trial on the
    model is the [getSamples] that found nothing (no estimate, no
    selection of inliers), nothing is thrown, and the loop that was
    at this trial returns the state of the [break], so that no later
    trial is executed. *)
Theorem empty_selection_ends_the_loop s s1 s2 :
  grow s = Ok (Continue s1) ->
  draw M s1 = Ok s2 ->
  selection (fr s2) = [] ->
  trial M L s = Ok (Break s2) /\
  iterations_ (this s2) = iterations_ (this s) /\
  best s2 = best s /\
  I_N_best (fr s2) = I_N_best (fr s) /\
  calls (this s2) =
    GetSamples (iterations_ (this s)) (index_pool (fr s1)) :: calls (this s) /\
  (forall fuel, in_budget s -> loop M L (S fuel) s = Ok s2).
Proof.
  intros Hg Hd Hsel.
  assert (trial M L s = Ok (Break s2)) as Ht.
  { unfold trial. rewrite Hg. simpl. rewrite Hd. simpl.
    rewrite Hsel. reflexivity. }
  split; [exact Ht|].
  pose proof Hg as Hg'. pose proof Hd as Hd'. open_phases.
  repeat split.
  - trace_back. reflexivity.
  - unfold best. trace_back. reflexivity.
  - trace_back. reflexivity.
  - trace_back. reflexivity.
  - intros fuel Hb. simpl.
    destruct (Z.ltb_spec (to_unsigned (iterations_ (this s))) (k_n_star (fr s)))
      as [_|Hge]; [|unfold in_budget in Hb; lia].
    rewrite Ht. reflexivity.
Qed.

(** X14.  The cap on the trials is tested at the end of a trial whose
    coefficients were estimated, after the counter has been advanced:
    such a trial ends the loop exactly when the counter is then greater
    than [max_iterations_], and goes on otherwise. *)
Theorem cap_is_tested_after_an_estimated_trial s s1 s2 s3 r :
  grow s = Ok (Continue s1) ->
  draw M s1 = Ok s2 ->
  selection (fr s2) <> [] ->
  estimate M s2 = (true, s3) ->
  trial M L s = Ok r ->
  iterations_ (this (state_of r)) = iterations_ (this s) + 1 /\
  max_iterations_ (this (state_of r)) = max_iterations_ (this s) /\
  (max_iterations_ (this s) < iterations_ (this s) + 1 ->
   r = Break (state_of r)) /\
  (iterations_ (this s) + 1 <= max_iterations_ (this s) ->
   r = Continue (state_of r)).
Proof.
  intros Hg Hd Hsel He Ht.
  unfold trial in Ht. rewrite Hg in Ht. simpl in Ht.
  rewrite Hd in Ht. simpl in Ht.
  destruct (selection (fr s2)) eqn:Hs; [congruence|]. simpl in Ht.
  rewrite He in Ht. simpl in Ht.
  bind_inv Ht. bind_inv Ht. rename a into s5, a0 into s6.
  assert (iterations_ (this s6) = iterations_ (this s) + 1 /\
          max_iterations_ (this s6) = max_iterations_ (this s)) as [Hit Hmax].
  { destruct (select_shape M s3) as (ms & found & Hs1 & Hs2).
    apply fit_cases in Ha. destruct Ha as [-> | [_ Hf]];
      open_phases; split; trace_back; reflexivity. }
  rewrite Hmax, Hit in Ht.
  destruct (Z.ltb_spec (max_iterations_ (this s)) (iterations_ (this s) + 1));
    inversion Ht; subst r; simpl; repeat split; auto; intros; lia.
Qed.

End Stops.

Lemma empty_selection_counterexample :
  computeModel Examples.no_samples Examples.numerics 10
    (Examples.engine [0; 1; 2; 3; 4; 5] Examples.half 50)
  = Ok (false,
        {| sac_model_ := tt; indices_ := [0; 1; 2; 3; 4; 5];
           threshold_ := Examples.half; max_iterations_ := 50;
           iterations_ := 0; inliers_ := []; model_ := [];
           model_coefficients_ := [];
           calls := [GetSamples 0 [0; 1; 2]] |})
  /\ ~ (exists s',
          trial Examples.no_samples Examples.numerics
            (Examples.start Examples.no_samples [0; 1; 2; 3; 4; 5] 50)
          = Ok (Continue s')).
Proof.
  split.
  - vm_compute. reflexivity.
  - intros [s' H]. vm_compute in H. discriminate H.
Qed.

Lemma empty_selection_ends_the_loop_witness :
  trial Examples.no_samples Examples.numerics
    (Examples.start Examples.no_samples [0; 1; 2; 3; 4; 5] 50)
  = Ok (Break
          (on_frame (set_selection [])
             (on_this (model_called tt (GetSamples 0 [0; 1; 2]))
                (Examples.start Examples.no_samples [0; 1; 2; 3; 4; 5] 50)))).
Proof.
  refine (proj1 (@empty_selection_ends_the_loop unit Examples.no_samples
                   Examples.numerics
                   (Examples.start Examples.no_samples [0; 1; 2; 3; 4; 5] 50)
                   (Examples.start Examples.no_samples [0; 1; 2; 3; 4; 5] 50)
                   _ _ _ _)).
  - vm_compute. reflexivity.
  - vm_compute. reflexivity.
  - reflexivity.
Defined.

(** Runs with [max_iterations_ = 0] on the indices 0 and 1 (or 0, 1 and
    2), with a model of sample size 1: a model whose estimate succeeds
    runs one whole trial, and returns [true] when the trial finds
    inliers; with a model whose estimate fails the second trial is
    entered with the counter already above the cap. *)
Lemma runs_with_a_zero_cap :
  computeModel (Examples.first_of_pool true false) Examples.numerics 10
    (Examples.engine [0; 1] Examples.half 0)
  = Ok (false,
        {| sac_model_ := tt; indices_ := [0; 1];
           threshold_ := Examples.half; max_iterations_ := 0;
           iterations_ := 1; inliers_ := []; model_ := [];
           model_coefficients_ := [];
           calls := [SelectWithinDistance [0; 1] [] Examples.half;
                     ComputeModelCoefficients [0];
                     GetSamples 0 [0]] |})
  /\ computeModel (Examples.first_of_pool true true) Examples.numerics 10
       (Examples.engine [0; 1] Examples.half 0)
     = Ok (true,
           {| sac_model_ := tt; indices_ := [0; 1];
              threshold_ := Examples.half; max_iterations_ := 0;
              iterations_ := 1; inliers_ := [0; 1]; model_ := [0];
              model_coefficients_ := [];
              calls := [SelectWithinDistance [0; 1] [] Examples.half;
                        ComputeModelCoefficients [0];
                        GetSamples 0 [0]] |})
  /\ exists s1 s2,
       trial (Examples.first_of_pool false false) Examples.numerics
         (Examples.start (Examples.first_of_pool false false) [0; 1; 2] 0)
       = Ok (Continue s1)
       /\ max_iterations_ (this s1) < iterations_ (this s1)
       /\ in_budget s1
       /\ trial (Examples.first_of_pool false false) Examples.numerics s1
          = Ok (Continue s2).
Proof.
  split; [vm_compute; reflexivity|].
  split; [vm_compute; reflexivity|].
  eexists. eexists.
  split; [vm_compute; reflexivity|].
  split; [vm_compute; reflexivity|].
  split; vm_compute; reflexivity.
Qed.

Lemma cap_is_tested_after_an_estimated_trial_witness :
  exists r,
    trial (Examples.first_of_pool true true) Examples.numerics
      (Examples.start (Examples.first_of_pool true true) [0; 1] 0) = Ok r /\
    r = Break (state_of r).
Proof.
  eexists. split; [vm_compute; reflexivity|].
  eapply (@cap_is_tested_after_an_estimated_trial unit
            (Examples.first_of_pool true true) Examples.numerics
            (Examples.start (Examples.first_of_pool true true) [0; 1] 0)).
  - vm_compute. reflexivity.
  - vm_compute. reflexivity.
  - vm_compute. discriminate.
  - vm_compute. reflexivity.
  - vm_compute. reflexivity.
  - vm_compute. reflexivity.
Defined.

(** ** Invariants of the loop *)

Section Invariants.

Variable MS : Type.
Variable M : SampleConsensusModel MS.
Variable L : Numerics.

Implicit Types s : state MS.

Lemma at_head_invariant (P : state MS -> Prop) s0 :
  P s0 ->
  (forall s s', P s -> trial M L s = Ok (Continue s') -> P s') ->
  forall s, at_head M L s0 s -> P s.
Proof.
  intros H0 Hstep s Hh. induction Hh as [|s s' _ IH _ Ht]; eauto.
Qed.

Lemma exits_invariant (P : state MS -> Prop) s0 :
  P s0 ->
  (forall s r, P s -> trial M L s = Ok r -> P (state_of r)) ->
  forall s, exits M L s0 s -> P s.
Proof.
  intros H0 Hstep s He.
  assert (forall s1, at_head M L s0 s1 -> P s1) as Hhead.
  { apply at_head_invariant; [assumption|].
    intros s1 s' HP Ht. exact (Hstep s1 (Continue s') HP Ht). }
  destruct He as [s Hh _ | s s' Hh _ Ht]; [auto|].
  exact (Hstep s (Break s') (Hhead s Hh) Ht).
Qed.

(** A trial keeps the stored best result and its count, or it has
    found more inliers and stores its own selection, coefficients and
    inliers. *)
Lemma trial_best s r :
  trial M L s = Ok r ->
  (best (state_of r) = best s /\
   I_N_best (fr (state_of r)) = I_N_best (fr s)) \/
  (I_N_best (fr s) < I_N_best (fr (state_of r)) /\
   I_N_best (fr (state_of r)) = Vec.size (inliers_ (this (state_of r))) /\
   model_ (this (state_of r)) = selection (fr (state_of r)) /\
   model_coefficients_ (this (state_of r)) =
     model_coefficients (fr (state_of r)) /\
   model_ (this (state_of r)) <> []).
Proof.
  intros H. apply trial_inv in H. unfold best.
  destruct H as [s' Hg | s1 s2 Hg Hd Hsel | s1 s2 s3 s4 Hg Hd Hsel He Hi
                | s1 s2 s3 s5 s6 Hg Hd Hsel He Hf Hi].
  - left. open_phases. split; trace_back; reflexivity.
  - left. open_phases. split; trace_back; reflexivity.
  - left. open_phases. split; trace_back; reflexivity.
  - rewrite state_of_cap.
    destruct (select_shape M s3) as (ms & found & Hs1 & Hs2).
    apply fit_cases in Hf. destruct Hf as [-> | [Hlt Hf]].
    + left. open_phases. split; trace_back; reflexivity.
    + right.
      assert (selection (fr (select M s3)) = selection (fr s2)) as Hsame
        by (open_phases; trace_back; reflexivity).
      assert (I_N_best (fr (select M s3)) = I_N_best (fr s)) as Hold
        by (open_phases; trace_back; reflexivity).
      rewrite Hold in Hlt.
      apply improve_shape in Hf. destruct Hf as (Hthis & eps & k & Hfr).
      apply incr_shape in Hi. destruct Hi as [_ ->].
      simpl. rewrite Hthis, Hfr. simpl.
      repeat split; auto. rewrite Hsame. assumption.
Qed.

Lemma trial_recorded s r :
  recorded s -> trial M L s = Ok r -> recorded (state_of r).
Proof.
  unfold recorded. intros Hs Ht Hpos.
  destruct (trial_best s Ht) as [[Hb Hn] | (Hlt & Hn & _ & _ & Hm)].
  - unfold best in Hb. inversion Hb as [[Hm Hc Hi]].
    rewrite Hm, Hi, Hn. apply Hs. lia.
  - split; [assumption|]. symmetry; assumption.
Qed.

(** C6.  Across the trials of a run the count of the best trial never
    decreases.  A trial leaves the stored selection, coefficients and
    inliers as they were, together with the count; or its own count of
    inliers is strictly greater than the count so far, and then the
    selection, the coefficients and the inliers of this trial are
    stored and the count becomes the number of these inliers. *)
Theorem best_count_never_decreases s0 s r :
  at_head M L s0 s ->
  trial M L s = Ok r ->
  I_N_best (fr s0) <= I_N_best (fr s) /\
  I_N_best (fr s) <= I_N_best (fr (state_of r)) /\
  ((best (state_of r) = best s /\
    I_N_best (fr (state_of r)) = I_N_best (fr s)) \/
   (I_N_best (fr s) < I_N_best (fr (state_of r)) /\
    I_N_best (fr (state_of r)) = Vec.size (inliers_ (this (state_of r))) /\
    model_ (this (state_of r)) = selection (fr (state_of r)) /\
    model_coefficients_ (this (state_of r)) =
      model_coefficients (fr (state_of r)))).
Proof.
  intros Hh Ht.
  assert (forall a r', trial M L a = Ok r' ->
                       I_N_best (fr a) <= I_N_best (fr (state_of r'))) as Hmono.
  { intros a r' Ha. destruct (trial_best a Ha) as [[_ E] | [E _]]; lia. }
  split; [|split].
  - clear Ht. revert s Hh. apply at_head_invariant; [lia|].
    intros a a' Ha Hta. specialize (Hmono a (Continue a') Hta). simpl in Hmono. lia.
  - apply Hmono; assumption.
  - destruct (trial_best s Ht) as [Hkeep | (Hlt & Hn & Hm & Hc & _)]; auto.
Qed.

(** C9.  The swap that puts the pool in the place of the indices of
    the model is undone before the trial goes on: [draw] returns with
    the indices and the pool it started with.  So at every trial of a
    run the model holds the index vector of the start of the run, the
    trial leaves it in place, and every [selectWithinDistance] of the
    run is called while the indices of the model are that vector. *)
Theorem inliers_are_selected_on_the_full_indices s0 s r :
  at_head M L s0 s ->
  trial M L s = Ok r ->
  (forall s1 s2, draw M s1 = Ok s2 ->
                 indices_ (this s2) = indices_ (this s1) /\
                 index_pool (fr s2) = index_pool (fr s1)) /\
  indices_ (this s) = indices_ (this s0) /\
  indices_ (this (state_of r)) = indices_ (this s0) /\
  exists new,
    calls (this (state_of r)) = new ++ calls (this s0) /\
    Forall (selects_on (indices_ (this s0))) new.
Proof.
  intros Hh Ht.
  split; [intros s1 s2; apply draw_restores|].
  assert (indices_ (this s) = indices_ (this s0)) as Hidx.
  { pose proof (at_head_fixed Hh) as Hf. unfold fixed in Hf. congruence. }
  assert (exists new, calls (this s) = new ++ calls (this s0) /\
                      Forall (selects_on (indices_ (this s0))) new) as Hcalls.
  { clear Ht Hidx. induction Hh as [|a a' Hh IH _ Hta].
    - exists []. split; [reflexivity|constructor].
    - destruct IH as (new & Hc & Hall).
      pose proof (at_head_fixed Hh) as Hf. unfold fixed in Hf.
      assert (indices_ (this a) = indices_ (this s0)) as Hia by congruence.
      destruct (trial_calls M L a Hta) as [(b & _ & Hr & _) | (more & Hm & Hsel & _)];
        [discriminate|].
      simpl in Hm. exists (more ++ GetSamples (iterations_ (this a))
                                     (index_pool (fr a')) :: new).
      split.
      + rewrite Hm, Hc, <- app_assoc. reflexivity.
      + apply Forall_app. split; [rewrite <- Hia; assumption|].
        constructor; [exact I|assumption]. }
  split; [assumption|]. split.
  - pose proof (trial_fixed M L s Ht) as Hf. unfold fixed in Hf. congruence.
  - destruct Hcalls as (new & Hc & Hall).
    destruct (trial_calls M L s Ht) as [(b & _ & Hr & Hb) | (more & Hm & Hsel & _)].
    + subst r. simpl. exists new. rewrite Hb. auto.
    + exists (more ++ GetSamples (iterations_ (this s))
                        (index_pool (fr (state_of r))) :: new).
      split.
      * rewrite Hm, Hc, <- app_assoc. reflexivity.
      * apply Forall_app. split; [rewrite <- Hidx; assumption|].
        constructor; [exact I|assumption].
Qed.

(** A bound of [INT_MAX + 1] passes is enough for every run. *)
Lemma computeModel_returns (e : SampleConsensus MS) :
  computeModel M L (Z.to_nat (INT_MAX + 1)) e <> OutOfFuel.
Proof.
  assert (INT_MAX < Z.of_nat (Z.to_nat (INT_MAX + 1))) as Hfuel
    by (rewrite Z2Nat.id; unfold INT_MAX; lia).
  revert Hfuel. generalize (Z.to_nat (INT_MAX + 1)). intros fuel Hfuel.
  unfold computeModel. destruct (feq _ _); [discriminate|].
  destruct (init M e) as [s0| | |] eqn:Hinit; simpl; try discriminate.
  - destruct (loop M L fuel s0) as [s| | |] eqn:Hloop; simpl; try discriminate.
    + destruct (Vec.empty _); discriminate.
    + exfalso. revert Hloop.
      apply init_shape in Hinit. destruct Hinit as (Hthis & _).
      apply loop_ends; rewrite Hthis; simpl; unfold INT_MAX in *; lia.
  - exfalso. revert Hinit. unfold init.
    apply bind_fuel; [apply to_integer_fuel|intros k].
    apply bind_fuel; [|discriminate].
    generalize (@nil Z). generalize 0.
    induction (length (indices_ e)) as [|room IH]; intros i pool; simpl.
    + destruct (flt _ _); discriminate.
    + destruct (flt _ _); [|discriminate].
      apply bind_fuel; [|intros x; apply IH].
      unfold Vec.index. destruct (nth_error _ _); discriminate.
Qed.

End Invariants.

Lemma best_count_never_decreases_witness :
  exists r,
    trial (Examples.first_of_pool true true) Examples.numerics
      (Examples.start (Examples.first_of_pool true true) [0; 1; 2] 5) = Ok r /\
    I_N_best (fr (Examples.start (Examples.first_of_pool true true) [0; 1; 2] 5))
    <= I_N_best (fr (state_of r)).
Proof.
  eexists. split.
  - vm_compute. reflexivity.
  - refine (proj1 (proj2 (@best_count_never_decreases unit
                            (Examples.first_of_pool true true) Examples.numerics
                            (Examples.start (Examples.first_of_pool true true) [0; 1; 2] 5)
                            (Examples.start (Examples.first_of_pool true true) [0; 1; 2] 5)
                            _ (head_start _ _ _) _))).
    vm_compute. reflexivity.
Defined.

Lemma inliers_are_selected_on_the_full_indices_witness :
  exists r,
    trial (Examples.first_of_pool true true) Examples.numerics
      (Examples.start (Examples.first_of_pool true true) [0; 1; 2] 5) = Ok r /\
    indices_ (this (state_of r)) = [0; 1; 2].
Proof.
  eexists. split.
  - vm_compute. reflexivity.
  - refine (proj1 (proj2 (proj2 (@inliers_are_selected_on_the_full_indices unit
                            (Examples.first_of_pool true true) Examples.numerics
                            (Examples.start (Examples.first_of_pool true true) [0; 1; 2] 5)
                            (Examples.start (Examples.first_of_pool true true) [0; 1; 2] 5)
                            _ (head_start _ _ _) _)))).
    vm_compute. reflexivity.
Defined.

(** ** The search for a better [n_star] and the new budget *)

Section Budget.

Variable L : Numerics.

Lemma reached_above (m : Z) (l : list Z) (x : Z) :
  In x (reached m l) -> x < INT_MAX -> m < to_unsigned (x + 1).
Proof.
  induction l as [|y l IH]; simpl; [tauto|].
  destruct (Z.ltb_spec y INT_MAX) as [Hy|Hy]; simpl.
  - destruct (Z.leb_spec (to_unsigned (y + 1)) m) as [Hle|Hgt]; simpl; [tauto|].
    intros [->|Hin] Hx; auto.
  - intros [->|Hin] Hx; [lia|auto].
Qed.

Lemma scan_reached (m : Z) (eps : float) (l : list Z) (c : scan_state) :
  scan L m eps l c = scan L m eps (reached m l) c.
Proof.
  revert c. induction l as [|y l IH]; intros c; simpl; [reflexivity|].
  destruct (y <? INT_MAX) eqn:Hy; simpl.
  - destruct (to_unsigned (y + 1) <=? m) eqn:Hle; simpl; [reflexivity|].
    rewrite Hy, Hle.
    destruct (_ && _).
    + destruct (to_unsigned_int _); simpl; try reflexivity.
      destruct (I_possible_n_star c <? _); [reflexivity|apply IH].
    + apply IH.
  - rewrite Hy. reflexivity.
Qed.

Lemma scan_stops (m : Z) (eps : float) (l1 l2 : list Z) (x : Z)
    (c : scan_state) :
  x < INT_MAX -> to_unsigned (x + 1) <= m ->
  scan L m eps (l1 ++ x :: l2) c = scan L m eps l1 c.
Proof.
  intros Hx Hle. revert c.
  induction l1 as [|y l1 IH]; intros c; simpl.
  - destruct (Z.ltb_spec x INT_MAX); [|lia].
    destruct (Z.leb_spec (to_unsigned (x + 1)) m); [reflexivity|lia].
  - destruct (_ <? _); [|reflexivity].
    destruct (_ <=? _); [reflexivity|].
    destruct (_ && _).
    + destruct (to_unsigned_int _); simpl; try reflexivity.
      destruct (_ <? _); [reflexivity|apply IH].
    + apply IH.
Qed.

Lemma scan_best (m : Z) (eps : float) (l : list Z) (c c' : scan_state) :
  scan L m eps l c = Ok c' ->
  possible_n_star_best c' = possible_n_star_best c \/
  (m < possible_n_star_best c' /\
   exists x, In x l /\ x < INT_MAX /\
             possible_n_star_best c' = to_unsigned (x + 1)).
Proof.
  revert c. induction l as [|y l IH]; intros c; simpl.
  - intros H; inversion H; auto.
  - destruct (Z.ltb_spec y INT_MAX) as [Hy|Hy]; [|discriminate].
    destruct (Z.leb_spec (to_unsigned (y + 1)) m) as [Hle|Hgt].
    + intros H; inversion H; auto.
    + destruct (_ && _).
      * intros H. bind_inv H.
        destruct (_ <? _); [inversion H; auto|].
        apply IH in H. simpl in H. right.
        destruct H as [-> | (Hm & x & Hin & Hx & E)].
        -- split; [assumption|]. exists y. auto.
        -- split; [assumption|]. exists x. auto.
      * intros H. apply IH in H. simpl in H.
        destruct H as [-> | (Hm & x & Hin & Hx & E)]; auto.
        right. split; [assumption|]. exists x. auto.
Qed.

(** C7.  The search goes through the sorted inliers from the last
    one.  It stops at the first inlier whose candidate pool size, its
    index plus one, is at or below the sample size [m]: that inlier and
    those after it have no effect on the result.  So every candidate
    the search examines is greater than [m], none is smaller than [m],
    and the best candidate it returns is the one it started with or a
    candidate greater than [m]. *)
Theorem scan_stops_at_the_sample_size
    (m : Z) (eps : float) (l : list Z) (c : scan_state) :
  (forall l1 x l2,
      l = l1 ++ x :: l2 -> x < INT_MAX -> to_unsigned (x + 1) <= m ->
      scan L m eps l c = scan L m eps l1 c) /\
  scan L m eps l c = scan L m eps (reached m l) c /\
  (forall x, In x (reached m l) -> x < INT_MAX -> m < to_unsigned (x + 1)) /\
  (forall c',
      scan L m eps l c = Ok c' ->
      possible_n_star_best c' = possible_n_star_best c \/
      m < possible_n_star_best c').
Proof.
  split; [|split; [|split]].
  - intros l1 x l2 -> Hx Hle. apply scan_stops; assumption.
  - apply scan_reached.
  - intros x. apply reached_above.
  - intros c' H. apply scan_best in H. tauto.
Qed.



End Budget.


(** ** The size of the pool *)

Section Pool.

Variable MS : Type.
Variable M : SampleConsensusModel MS.
Variable L : Numerics.

Implicit Types s : state MS.

Lemma firstn_snoc (l : list Z) (k : nat) (x : Z) :
  nth_error l k = Some x -> firstn (S k) l = firstn k l ++ [x].
Proof.
  revert l. induction k as [|k IH]; intros [|y l] H; try discriminate.
  - inversion H; reflexivity.
  - change (y :: firstn (S k) l = y :: (firstn k l ++ [x])).
    f_equal. apply IH. exact H.
Qed.

Lemma nth_error_in_range (l : list Z) (k : nat) :
  (k < length l)%nat -> exists x, nth_error l k = Some x.
Proof.
  intros H. destruct (nth_error l k) as [x|] eqn:E; [eauto|].
  apply nth_error_None in E. lia.
Qed.

(** The first pool is made of the first [m] indices. *)
Lemma fill_pool_prefix (indices : list Z) (m0 : Z) (room : nat) (i : Z) :
  Z.of_nat (length indices) < 2 ^ 24 ->
  0 <= i <= m0 -> m0 <= Z.of_nat (length indices) ->
  Z.of_nat room + i = Z.of_nat (length indices) ->
  fill_pool room indices (float_of_Z m0) i (firstn (Z.to_nat i) indices)
  = Ok (firstn (Z.to_nat m0) indices).
Proof.
  intros Hlen. revert i. induction room as [|room IH]; intros i Hi Hm Hroom.
  - simpl. rewrite flt_int by lia.
    destruct (Z.ltb_spec i m0); [lia|]. do 2 f_equal. lia.
  - simpl. rewrite flt_int by lia.
    destruct (Z.ltb_spec i m0) as [Hlt|Hge]; [|do 2 f_equal; lia].
    destruct (@nth_error_in_range indices (Z.to_nat i)) as [x Hx]; [lia|].
    unfold Vec.index. rewrite Hx. simpl.
    rewrite to_unsigned_small by (unfold UINT_MAX; lia).
    unfold Vec.push_back. rewrite <- (firstn_snoc _ _ Hx).
    replace (S (Z.to_nat i)) with (Z.to_nat (i + 1)) by lia.
    apply IH; lia.
Qed.


Lemma init_pool (e : SampleConsensus MS) s0 :
  init M e = Ok s0 ->
  m (fr s0) <= N (fr s0) ->
  Z.of_nat (length (indices_ e)) < 2 ^ 24 ->
  pool_is (indices_ e) (m (fr s0)) (m (fr s0)) s0.
Proof.
  intros Hinit Hm Hlen.
  unfold init in Hinit. bind_inv Hinit. bind_inv Hinit.
  injection Hinit as <-. rename a0 into pool.
  cbn [fr this m N] in Hm. unfold pool_is. cbn [fr this m N n n_star index_pool].
  assert (Vec.size (indices_ e) = Z.of_nat (length (indices_ e))) as HN.
  { unfold Vec.size. apply to_unsigned_small. unfold UINT_MAX. lia. }
  rewrite HN in *.
  pose proof (to_unsigned_range (getSampleSize M)) as Hpos.
  assert (fill_pool (length (indices_ e)) (indices_ e)
            (float_of_Z (to_unsigned (getSampleSize M))) 0 []
          = Ok (firstn (Z.to_nat (to_unsigned (getSampleSize M))) (indices_ e)))
    as Hfill
    by (apply (@fill_pool_prefix (indices_ e) (to_unsigned (getSampleSize M))
                 (length (indices_ e)) 0); lia).
  rewrite Hfill in Ha0. injection Ha0 as <-.
  repeat split; try reflexivity; lia.
Qed.

(** Step 1 with a pool of size [k]: nothing changes, or the pool takes
    the next index, or the size would reach the number of indices and
    the loop is left. *)
Lemma grow_pool (full : list Z) (m0 k : Z) s g :
  Z.of_nat (length full) < 2 ^ 24 -> 0 <= m0 ->
  pool_is full m0 k s ->
  grow s = Ok g ->
  g = Continue s \/
  (k + 1 < Z.of_nat (length full) /\
   exists s', g = Continue s' /\ pool_is full m0 (k + 1) s' /\
              this s' = this s) \/
  (k + 1 = Z.of_nat (length full) /\
   g = Break (on_frame (set_n (float_of_Z (k + 1))) s)).
Proof.
  intros Hlen Hm0 (Hn & Hk & Hpool & Hidx & HN & Hstar) Hg.
  unfold grow in Hg. rewrite Hn, Hstar, HN in Hg.
  rewrite flt_int in Hg by lia.
  destruct (feq _ _); simpl in Hg; [|left; congruence].
  destruct (Z.ltb_spec k (Z.of_nat (length full))) as [Hlt|Hge];
    [|left; congruence].
  rewrite fadd_int in Hg by lia.
  rewrite fle_int in Hg by lia.
  destruct (Z.leb_spec (Z.of_nat (length full)) (k + 1)) as [Hfull|Hroom].
  - right. right. split; [lia|]. congruence.
  - right. left. split; [assumption|].
    rewrite fsub_int in Hg by lia.
    replace (k + 1 - 1) with k in Hg by lia.
    rewrite to_size_t_int in Hg by lia. simpl in Hg.
    destruct (@nth_error_in_range full (Z.to_nat k)) as [x Hx]; [lia|].
    unfold Vec.at_ in Hg. rewrite Hidx, Hx in Hg. simpl in Hg.
    injection Hg as <-. eexists. split; [reflexivity|].
    split; [|reflexivity].
    unfold pool_is. simpl. rewrite Hidx, HN, Hstar, Hpool.
    repeat split; try reflexivity; try lia.
    unfold Vec.push_back. rewrite <- (firstn_snoc _ _ Hx).
    f_equal. lia.
Qed.

(** After step 1 a trial changes neither the size of the pool nor the
    pool, and a trial that step 1 ended makes no call. *)
Lemma trial_after_grow s r :
  trial M L s = Ok r ->
  exists g,
    grow s = Ok g /\
    n (fr (state_of r)) = n (fr (state_of g)) /\
    index_pool (fr (state_of r)) = index_pool (fr (state_of g)) /\
    (forall s', g = Break s' -> r = Break s').
Proof.
  intros H. apply trial_inv in H.
  destruct H as [s' Hg | s1 s2 Hg Hd Hsel | s1 s2 s3 s4 Hg Hd Hsel He Hi
                | s1 s2 s3 s5 s6 Hg Hd Hsel He Hf Hi];
    (eexists; split; [exact Hg|]).
  - repeat split; auto; intros s'' E; congruence.
  - open_phases. repeat split; try (trace_back; reflexivity); discriminate.
  - open_phases. repeat split; try (trace_back; reflexivity); discriminate.
  - rewrite state_of_cap.
    destruct (select_shape M s3) as (ms & found & Hs1 & Hs2).
    apply fit_cases in Hf. destruct Hf as [-> | [_ Hf]]; open_phases;
      (repeat split; try (trace_back; reflexivity); discriminate).
Qed.

Lemma at_head_pool (e : SampleConsensus MS) s0 s :
  init M e = Ok s0 ->
  m (fr s0) <= N (fr s0) ->
  Z.of_nat (length (indices_ e)) < 2 ^ 24 ->
  at_head M L s0 s ->
  exists k, pool_is (indices_ e) (m (fr s0)) k s.
Proof.
  intros Hinit Hm Hlen Hh.
  assert (0 <= m (fr s0)) as Hpos.
  { pose proof (init_shape M e Hinit) as (_ & _ & _ & _ & _ & _ & -> & _).
    apply to_unsigned_range. }
  induction Hh as [|s s' Hh IH Hb Ht].
  - exists (m (fr s0)). apply init_pool; assumption.
  - destruct IH as (k & Hk).
    destruct (trial_after_grow s Ht) as (g & Hg & Hn & Hp & Hbrk).
    pose proof (trial_fixed M L s Ht) as Hfix. unfold fixed in Hfix.
    simpl in Hfix, Hn, Hp.
    injection Hfix as Hi _ _ _ HN _ Hstar _.
    destruct (grow_pool Hlen Hpos Hk Hg)
      as [-> | [(Hlt & s1 & -> & Hk1 & _) | (_ & ->)]].
    + exists k. destruct Hk as (Kn & Kk & Kp & Ki & KN & Ks). simpl in Hn, Hp.
      unfold pool_is. rewrite Hn, Hp, Hi, HN, Hstar. auto 10.
    + exists (k + 1). destruct Hk1 as (Kn & Kk & Kp & Ki & KN & Ks).
      destruct Hk as (_ & _ & _ & Ki' & KN' & Ks'). simpl in Hn, Hp.
      unfold pool_is. rewrite Hn, Hp, Hi, HN, Hstar. auto 10.
    + specialize (Hbrk _ eq_refl). discriminate.
Qed.

(** C5.  The run starts from an index vector of fewer than [2^24]
    elements, the range in which the float [n] counts exactly, and
    from a sample size [m] that is at most their number [N].  At every
    trial the size [n] of the pool is an integer [k] between [m] and
    [N], and the pool is made of the first [k] indices.  The trial
    leaves the size as it is or adds one to it and never takes it
    above [N].  When one is added and the size stays below [N] the
    pool takes the next index; when the size reaches [N] the trial
    ends the loop and the pool is left as it was. *)
Theorem pool_size_stays_between_m_and_N
    (e : SampleConsensus MS) s0 s r :
  init M e = Ok s0 ->
  m (fr s0) <= N (fr s0) ->
  Z.of_nat (length (indices_ e)) < 2 ^ 24 ->
  at_head M L s0 s ->
  trial M L s = Ok r ->
  exists k k',
    n (fr s) = float_of_Z k /\
    n (fr (state_of r)) = float_of_Z k' /\
    m (fr s0) <= k /\ k <= k' /\ k' <= k + 1 /\ k' <= N (fr s0) /\
    index_pool (fr s) = firstn (Z.to_nat k) (indices_ e) /\
    (k' = k -> index_pool (fr (state_of r)) = index_pool (fr s)) /\
    (k' = k + 1 -> k' < N (fr s0) ->
     index_pool (fr (state_of r)) = firstn (Z.to_nat k') (indices_ e)) /\
    (k' = k + 1 -> N (fr s0) <= k' ->
     r = Break (state_of r) /\
     index_pool (fr (state_of r)) = index_pool (fr s) /\
     calls (this (state_of r)) = calls (this s)).
Proof.
  intros Hinit Hm Hlen Hh Ht.
  destruct (at_head_pool e Hinit Hm Hlen Hh) as (k & Hk).
  assert (0 <= m (fr s0)) as Hpos.
  { pose proof (init_shape M e Hinit) as (_ & _ & _ & _ & _ & _ & -> & _).
    apply to_unsigned_range. }
  assert (N (fr s0) = Z.of_nat (length (indices_ e))) as HN0.
  { pose proof (init_pool e Hinit Hm Hlen) as (_ & _ & _ & _ & HN & _).
    exact HN. }
  destruct (trial_after_grow s Ht) as (g & Hg & Hn & Hp & Hbrk).
  destruct (grow_pool Hlen Hpos Hk Hg)
    as [-> | [(Hlt & s1 & -> & Hk1 & _) | (Hfull & ->)]];
    destruct Hk as (Kn & Kk & Kp & Ki & KN & Ks); simpl in Hn, Hp.
  - exists k, k. rewrite Hn, Hp, HN0.
    repeat split; auto; try lia.
  - destruct Hk1 as (Kn1 & Kk1 & Kp1 & _).
    exists k, (k + 1). rewrite Hn, Hp, HN0.
    repeat split; auto; try lia.
  - specialize (Hbrk _ eq_refl). subst r. simpl.
    exists k, (k + 1). rewrite HN0.
    repeat split; auto; try lia.
Qed.

End Pool.

Lemma pool_size_stays_between_m_and_N_witness :
  exists r k k',
    trial (Examples.first_of_pool true false) Examples.numerics
      (Examples.start (Examples.first_of_pool true false) [0; 1; 2] 5) = Ok r /\
    n (fr (state_of r)) = float_of_Z k' /\ k <= k' /\ k' <= 3.
Proof.
  destruct (trial (Examples.first_of_pool true false) Examples.numerics
              (Examples.start (Examples.first_of_pool true false) [0; 1; 2] 5))
    as [r| | |] eqn:Ht;
    [|vm_compute in Ht; discriminate Ht..].
  exists r.
  assert (init (Examples.first_of_pool true false)
            (Examples.engine [0; 1; 2] Examples.half 5)
          = Ok (Examples.start (Examples.first_of_pool true false) [0; 1; 2] 5))
    as Hinit by (vm_compute; reflexivity).
  destruct (@pool_size_stays_between_m_and_N unit
              (Examples.first_of_pool true false) Examples.numerics
              (Examples.engine [0; 1; 2] Examples.half 5)
              (Examples.start (Examples.first_of_pool true false) [0; 1; 2] 5)
              (Examples.start (Examples.first_of_pool true false) [0; 1; 2] 5)
              r Hinit)
    as (k & k' & _ & Hn & _ & Hle & _ & HN & _).
  - vm_compute. discriminate.
  - vm_compute. reflexivity.
  - apply head_start.
  - exact Ht.
  - exists k, k'. split; [reflexivity|]. split; [exact Hn|]. split; [exact Hle|].
    exact HN.
Defined.

(** * Further properties of [computeModel] *)

(** ** The end of a run, and what a run leaves in place *)

Section Ends.

Variable MS : Type.
Variable M : SampleConsensusModel MS.
Variable L : Numerics.

Implicit Types s : state MS.


Lemma cap_continue (c : bool) s s' :
  (if c then Break s else Continue s) = Continue s' -> c = false /\ s' = s.
Proof. destruct c; intros H; inversion H; auto. Qed.

(** A bound that was enough stays enough. *)
Lemma loop_more (fuel k : nat) s :
  loop M L fuel s <> OutOfFuel -> loop M L (fuel + k) s = loop M L fuel s.
Proof.
  revert s. induction fuel as [|fuel IH]; intros s H.
  - simpl in H. destruct k; simpl;
      destruct (_ <? _); try reflexivity; congruence.
  - simpl in *. destruct (_ <? _); [|reflexivity].
    destruct (trial M L s) as [[s'|s']| | |]; simpl in *; try reflexivity.
    apply IH. exact H.
Qed.

(** What [computeModel] returns is read off the state in which its loop
    ended. *)
Lemma computeModel_exits (fuel : nat) (e : SampleConsensus MS) b e' :
  computeModel M L fuel e = Ok (b, e') ->
  feq (threshold_ e) DBL_MAX = false ->
  exists s0 s,
    init M e = Ok s0 /\ exits M L s0 s /\
    ((model_ (this s) = [] /\ b = false /\ e' = set_inliers_ [] (this s)) \/
     (model_ (this s) <> [] /\ b = true /\ e' = this s)).
Proof.
  unfold computeModel. intros H Hthr. rewrite Hthr in H.
  bind_inv H. bind_inv H. rename a into s0, a0 into s.
  exists s0, s. split; [assumption|]. split; [eapply loop_exits; eassumption|].
  destruct (model_ (this s)) eqn:Hm; simpl in H; injection H as <- <-.
  - left. auto.
  - right. repeat split; auto. discriminate.
Qed.

(** One pass through the body: where the counter and the history go. *)
Lemma trial_history s r :
  trial M L s = Ok r ->
  exists more,
    calls (this (state_of r)) = more ++ calls (this s) /\
    ((more = [] /\ iterations_ (this (state_of r)) = iterations_ (this s) /\
      r = Break (state_of r)) \/
     (draws more = 1 /\ iterations_ (this (state_of r)) = iterations_ (this s) /\
      r = Break (state_of r)) \/
     (draws more = 1 /\
      iterations_ (this (state_of r)) = iterations_ (this s) + 1 /\
      iterations_ (this s) < INT_MAX)).
Proof.
  intros H. apply trial_inv in H.
  destruct H as [s' Hg | s1 s2 Hg Hd Hsel | s1 s2 s3 s4 Hg Hd Hsel He Hi
                | s1 s2 s3 s5 s6 Hg Hd Hsel He Hf Hi].
  - exists []. open_phases. split; [trace_back; reflexivity|].
    left. repeat split. trace_back. reflexivity.
  - exists [GetSamples (iterations_ (this s)) (index_pool (fr s1))].
    open_phases. split; [trace_back; reflexivity|].
    right. left. repeat split. trace_back. reflexivity.
  - exists [ComputeModelCoefficients (selection (fr s2));
            GetSamples (iterations_ (this s)) (index_pool (fr s1))].
    open_phases. split; [trace_back; reflexivity|].
    right. right. repeat split; trace_back; lia.
  - rewrite state_of_cap.
    destruct (select_shape M s3) as (ms & found & Hs1 & Hs2).
    exists [SelectWithinDistance (indices_ (this s3)) (model_coefficients (fr s3))
              (threshold_ (this s3));
            ComputeModelCoefficients (selection (fr s2));
            GetSamples (iterations_ (this s)) (index_pool (fr s1))].
    apply fit_cases in Hf. destruct Hf as [-> | [_ Hf]]; open_phases;
      (split; [trace_back; reflexivity|]);
      right; right; repeat split; trace_back; lia.
Qed.

(** X1.  Every run ends.  A pass that goes on adds one to the trial
    counter, which cannot pass [INT_MAX], so [INT_MAX + 1] passes are
    enough for every engine, model and numeric library; and a bound on
    the passes that was enough can be raised without any change in what
    [computeModel] returns. *)
Theorem every_run_ends (e : SampleConsensus MS) :
  computeModel M L (Z.to_nat (INT_MAX + 1)) e <> OutOfFuel /\
  forall fuel k : nat,
    computeModel M L fuel e <> OutOfFuel ->
    computeModel M L (fuel + k) e = computeModel M L fuel e.
Proof.
  split; [apply computeModel_returns|].
  intros fuel k. unfold computeModel.
  destruct (feq _ _); [reflexivity|].
  destruct (init M e) as [s0| | |]; simpl; try reflexivity.
  intros H. rewrite loop_more; [reflexivity|].
  intros E. rewrite E in H. simpl in H. congruence.
Qed.

(** X2.  A run that returns has left the configuration of the engine
    in place: the index vector of the model, the threshold and the cap
    on the trials are those it was given, and the history of the calls
    on the model has only grown. *)
Theorem computeModel_keeps_the_configuration
    (fuel : nat) (e : SampleConsensus MS) (b : bool) (e' : SampleConsensus MS) :
  computeModel M L fuel e = Ok (b, e') ->
  indices_ e' = indices_ e /\
  threshold_ e' = threshold_ e /\
  max_iterations_ e' = max_iterations_ e /\
  exists new, calls e' = new ++ calls e.
Proof.
  intros H.
  destruct (feq (threshold_ e) DBL_MAX) eqn:Hthr.
  - unfold computeModel in H. rewrite Hthr in H. injection H as <- <-.
    repeat split. exists []. reflexivity.
  - destruct (computeModel_exits _ _ H Hthr) as (s0 & s & Hinit & Hex & Hres).
    assert (indices_ (this s) = indices_ e /\ threshold_ (this s) = threshold_ e /\
            max_iterations_ (this s) = max_iterations_ e /\
            exists new, calls (this s) = new ++ calls e) as Hs.
    { clear Hres H. revert s Hex. apply exits_invariant.
      - apply init_shape in Hinit. destruct Hinit as (-> & _). simpl.
        repeat split. exists []. reflexivity.
      - intros a r (Hi & Ht & Hm & new & Hc) Hr.
        pose proof (trial_fixed M L a Hr) as Hf. unfold fixed in Hf.
        injection Hf as Hi' Ht' Hm' _.
        destruct (trial_history a Hr) as (more & Hc' & _).
        repeat split; try congruence.
        exists (more ++ new). rewrite Hc', Hc, app_assoc. reflexivity. }
    destruct Hs as (Hi & Ht & Hm & new & Hc).
    destruct Hres as [(_ & _ & ->) | (_ & _ & ->)]; simpl; eauto 10.
Qed.


(** X6.  With a model whose coefficient estimate never fails, the cap
    bounds the trials: a run that returns has advanced the trial counter
    to at most [max_iterations_ + 1], and to at most one when the cap is
    zero or negative. *)
Theorem the_cap_bounds_the_trials_of_a_model_that_always_fits
    (fuel : nat) (e : SampleConsensus MS) (b : bool) (e' : SampleConsensus MS) :
  (forall ms indices samples mc,
      fst (snd (computeModelCoefficients M ms indices samples mc)) = true) ->
  computeModel M L fuel e = Ok (b, e') ->
  feq (threshold_ e) DBL_MAX = false ->
  iterations_ e' <= Z.max 0 (max_iterations_ e) + 1.
Proof.
  intros Hfit H Hthr.
  destruct (computeModel_exits _ _ H Hthr) as (s0 & s & Hinit & Hex & Hres).
  pose proof (init_shape M e Hinit) as (Hthis & _).
  assert (forall a ok a', estimate M a = (ok, a') -> ok = true) as Hest.
  { intros a ok a'. unfold estimate.
    specialize (Hfit (sac_model_ (this a)) (indices_ (this a))
                  (selection (fr a)) (model_coefficients (fr a))).
    destruct (computeModelCoefficients M _ _ _ _) as [ms [ok' mc]].
    simpl in Hfit. intros E; inversion E; congruence. }
  assert (forall a, at_head M L s0 a ->
                    max_iterations_ (this a) = max_iterations_ e /\
                    iterations_ (this a) <= Z.max 0 (max_iterations_ e)) as Hhead.
  { apply at_head_invariant.
    - rewrite Hthis. simpl. split; lia.
    - intros a a' (Hm & Hi) Hr.
      pose proof (trial_fixed M L a Hr) as Hf. unfold fixed in Hf.
      injection Hf as _ _ Hm' _. simpl in Hm'.
      split; [congruence|].
      apply trial_inv in Hr. remember (Continue a') as r eqn:Er.
      destruct Hr as [s' Hg | s1 s2 Hg Hd Hsel | s1 s2 s3 s4 Hg Hd Hsel He Hi'
                     | s1 s2 s3 s5 s6 Hg Hd Hsel He Hf' Hi']; try discriminate.
      + apply Hest in He. discriminate.
      + apply cap_continue in Er. destruct Er as [Ec ->].
        apply Z.ltb_ge in Ec. lia. }
  assert (iterations_ (this s) <= Z.max 0 (max_iterations_ e) + 1) as Hs.
  { destruct Hex as [s Hh _ | a s Hh _ Hr].
    - destruct (Hhead s Hh). lia.
    - destruct (Hhead a Hh) as [_ Hi].
      destruct (trial_history a Hr) as (more & _ & Hcase). simpl in *.
      destruct Hcase as [(_ & E & _) | [(_ & E & _) | (_ & E & _)]]; lia. }
  destruct Hres as [(_ & _ & ->) | (_ & _ & ->)]; simpl; auto.
Qed.

End Ends.

Lemma computeModel_keeps_the_configuration_witness :
  exists b e',
    computeModel (Examples.first_of_pool true true) Examples.numerics 10
      (Examples.engine [0; 1; 2] Examples.half 5) = Ok (b, e') /\
    indices_ e' = [0; 1; 2].
Proof.
  destruct (computeModel (Examples.first_of_pool true true) Examples.numerics 10
              (Examples.engine [0; 1; 2] Examples.half 5))
    as [[b e']| | |] eqn:H; [|vm_compute in H; discriminate H..].
  exists b, e'. split; [reflexivity|].
  exact (proj1 (@computeModel_keeps_the_configuration unit
                  (Examples.first_of_pool true true) Examples.numerics 10
                  (Examples.engine [0; 1; 2] Examples.half 5) b e' H)).
Defined.


Lemma the_cap_bounds_the_trials_of_a_model_that_always_fits_witness :
  exists b e',
    computeModel (Examples.first_of_pool true false) Examples.numerics 10
      (Examples.engine [0; 1; 2] Examples.half 3) = Ok (b, e') /\
    iterations_ e' <= 4.
Proof.
  destruct (computeModel (Examples.first_of_pool true false) Examples.numerics 10
              (Examples.engine [0; 1; 2] Examples.half 3))
    as [[b e']| | |] eqn:H; [|vm_compute in H; discriminate H..].
  exists b, e'. split; [reflexivity|].
  apply (@the_cap_bounds_the_trials_of_a_model_that_always_fits unit
           (Examples.first_of_pool true false) Examples.numerics 10
           (Examples.engine [0; 1; 2] Examples.half 3) b e').
  - intros ms indices samples mc. reflexivity.
  - exact H.
  - reflexivity.
Defined.

(** ** The first pool, the first trial, and a failed estimate *)

Section Edges.

Variable MS : Type.
Variable M : SampleConsensusModel MS.
Variable L : Numerics.

Implicit Types s : state MS.

(** With fewer indices than the sample size the first pool cannot be
    filled. *)
Lemma fill_pool_overrun (indices : list Z) (m0 : Z) (room : nat) (i : Z)
    (pool : list Z) :
  Z.of_nat (length indices) < m0 < 2 ^ 24 ->
  0 <= i ->
  Z.of_nat room + i = Z.of_nat (length indices) ->
  fill_pool room indices (float_of_Z m0) i pool = Undefined.
Proof.
  intros Hm. revert i pool.
  induction room as [|room IH]; intros i pool Hi Hroom; simpl.
  - rewrite flt_int by lia. destruct (Z.ltb_spec i m0); [reflexivity|lia].
  - rewrite flt_int by lia. destruct (Z.ltb_spec i m0); [|lia].
    destruct (@nth_error_in_range indices (Z.to_nat i)) as [x Hx]; [lia|].
    unfold Vec.index. rewrite Hx. simpl.
    rewrite to_unsigned_small by (unfold UINT_MAX; lia).
    apply IH; lia.
Qed.

(** X3.  With a threshold set, a model whose sample size is greater
    than the number of indices makes [computeModel] read the index
    vector past its end while it fills the first pool: the run is
    undefined, for every bound on the loop, before any call on the
    model.  (Sample sizes below [2^24].) *)
Theorem more_samples_than_indices_is_undefined
    (fuel : nat) (e : SampleConsensus MS) :
  feq (threshold_ e) DBL_MAX = false ->
  Z.of_nat (length (indices_ e)) < to_unsigned (getSampleSize M) < 2 ^ 24 ->
  computeModel M L fuel e = Undefined.
Proof.
  intros Hthr Hm. unfold computeModel. rewrite Hthr.
  unfold init. cbv zeta.
  assert (to_unsigned_int (float_of_Z 200000) = Ok 200000) as ->
    by (vm_compute; reflexivity).
  cbn [bind].
  rewrite (@fill_pool_overrun (indices_ e) (to_unsigned (getSampleSize M))
             (length (indices_ e)) 0 [] Hm); [reflexivity|lia|lia].
Qed.

(** X4.  The first trial of a run neither grows the pool nor forces an
    index into the selection: [getSamples] is called with the counter
    zero while the indices of the model are the first [m] indices, and
    the selection of the trial is what this call returned.  (Index
    vectors of fewer than [2^24] elements, sample size at most their
    number.) *)
Theorem the_first_trial_draws_from_the_first_m_indices
    (e : SampleConsensus MS) s0 :
  init M e = Ok s0 ->
  m (fr s0) <= N (fr s0) ->
  Z.of_nat (length (indices_ e)) < 2 ^ 24 ->
  let pool := firstn (Z.to_nat (m (fr s0))) (indices_ e) in
  let drawn := getSamples M (sac_model_ e) pool 0 in
  grow s0 = Ok (Continue s0) /\
  exists s2,
    draw M s0 = Ok s2 /\
    selection (fr s2) = snd drawn /\
    sac_model_ (this s2) = fst drawn /\
    calls (this s2) = GetSamples 0 pool :: calls e /\
    index_pool (fr s2) = pool /\
    indices_ (this s2) = indices_ e.
Proof.
  intros Hinit Hm Hlen pool drawn.
  destruct (first_trial_entered M e Hinit) as [_ Hg].
  split; [exact Hg|].
  pose proof (init_pool M e Hinit Hm Hlen) as (_ & _ & Hpool & Hidx & _).
  pose proof (init_shape M e Hinit) as (Hthis & HT & _).
  unfold draw. cbn [swap_indices this fr indices_ set_indices_ sac_model_
                      iterations_ on_this set_index_pool set_pool T_prime_n
                      model_called].
  rewrite HT, Hpool, Hthis. cbn [iterations_ set_iterations_ sac_model_].
  fold pool. fold drawn.
  destruct drawn as [ms sel] eqn:Ed.
  change (flt (float_of_Z 1) (float_of_Z 0)) with false. cbn [bind].
  eexists. split; [reflexivity|].
  cbn. rewrite Hpool, Hthis. cbn. fold pool. auto.
Qed.

(** X5.  A trial whose coefficient estimate fails goes on to the next
    trial, whatever the cap on the trials is: it adds one to the trial
    counter, makes no [selectWithinDistance] call, and leaves the stored
    best result, its count, [epsilon_n_star] and [k_n_star] as they
    were. *)
Theorem a_failed_estimate_only_counts s s1 s2 s3 :
  grow s = Ok (Continue s1) ->
  draw M s1 = Ok s2 ->
  selection (fr s2) <> [] ->
  estimate M s2 = (false, s3) ->
  iterations_ (this s) < INT_MAX ->
  exists s4,
    trial M L s = Ok (Continue s4) /\
    iterations_ (this s4) = iterations_ (this s) + 1 /\
    best s4 = best s /\
    I_N_best (fr s4) = I_N_best (fr s) /\
    epsilon_n_star (fr s4) = epsilon_n_star (fr s) /\
    k_n_star (fr s4) = k_n_star (fr s) /\
    calls (this s4) =
      ComputeModelCoefficients (selection (fr s2))
      :: GetSamples (iterations_ (this s)) (index_pool (fr s1))
      :: calls (this s).
Proof.
  intros Hg Hd Hsel He Hlt.
  assert (iterations_ (this s3) = iterations_ (this s)) as Hit
    by (pose proof Hg; pose proof Hd; pose proof He; open_phases;
        trace_back; reflexivity).
  exists (on_this (set_iterations_ (iterations_ (this s3) + 1)) s3).
  split.
  - unfold trial. rewrite Hg. cbn [bind]. rewrite Hd. cbn [bind].
    destruct (selection (fr s2)); [congruence|]. cbn [Vec.empty].
    rewrite He. cbn [negb]. unfold incr_iterations. rewrite Hit.
    destruct (Z.ltb_spec (iterations_ (this s)) INT_MAX); [reflexivity|lia].
  - open_phases. unfold best.
    repeat split; trace_back; try reflexivity; lia.
Qed.

(** X10.  When the sample size is the number of indices the pool is
    the whole index vector at every trial, and step 1 never changes it
    and never ends the loop.  (Index vectors of fewer than [2^24]
    elements.) *)
Theorem a_full_first_pool_never_grows (e : SampleConsensus MS) s0 s :
  init M e = Ok s0 ->
  m (fr s0) = N (fr s0) ->
  Z.of_nat (length (indices_ e)) < 2 ^ 24 ->
  at_head M L s0 s ->
  index_pool (fr s) = indices_ e /\
  n (fr s) = float_of_Z (N (fr s0)) /\
  grow s = Ok (Continue s).
Proof.
  intros Hinit Hm Hlen Hh.
  assert (m (fr s0) <= N (fr s0)) as Hle by lia.
  pose proof (init_pool M e Hinit Hle Hlen) as (_ & _ & _ & _ & HN0 & _).
  destruct (at_head_pool e Hinit Hle Hlen Hh)
    as (k & Hn & Hk & Hpool & Hidx & HN & Hstar).
  assert (k = Z.of_nat (length (indices_ e))) as -> by lia.
  repeat split.
  - rewrite Hpool, Nat2Z.id. apply firstn_all.
  - rewrite Hn, HN0. reflexivity.
  - unfold grow. rewrite Hn, Hstar. rewrite flt_int by lia.
    rewrite Z.ltb_irrefl, andb_false_r. reflexivity.
Qed.

End Edges.

Lemma more_samples_than_indices_is_undefined_witness :
  computeModel Examples.no_samples Examples.numerics 10
    (Examples.engine [0; 1] Examples.half 5) = Undefined.
Proof.
  apply more_samples_than_indices_is_undefined.
  - reflexivity.
  - vm_compute. split; reflexivity.
Defined.

Lemma the_first_trial_draws_from_the_first_m_indices_witness :
  grow (Examples.start Examples.no_samples [0; 1; 2; 3] 5)
  = Ok (Continue (Examples.start Examples.no_samples [0; 1; 2; 3] 5)).
Proof.
  refine (proj1 (@the_first_trial_draws_from_the_first_m_indices unit
                   Examples.no_samples
                   (Examples.engine [0; 1; 2; 3] Examples.half 5)
                   (Examples.start Examples.no_samples [0; 1; 2; 3] 5) _ _ _)).
  - vm_compute. reflexivity.
  - vm_compute. discriminate.
  - vm_compute. reflexivity.
Defined.

Lemma a_failed_estimate_only_counts_witness :
  exists s4,
    trial (Examples.first_of_pool false false) Examples.numerics
      (Examples.start (Examples.first_of_pool false false) [0; 1; 2] 0)
    = Ok (Continue s4) /\
    iterations_ (this s4) = 0 + 1.
Proof.
  edestruct (@a_failed_estimate_only_counts unit
               (Examples.first_of_pool false false) Examples.numerics
               (Examples.start (Examples.first_of_pool false false) [0; 1; 2] 0))
    as (s4 & Ht & Hi & _).
  - vm_compute. reflexivity.
  - vm_compute. reflexivity.
  - vm_compute. discriminate.
  - vm_compute. reflexivity.
  - vm_compute. reflexivity.
  - exists s4. split; [exact Ht|exact Hi].
Defined.

Lemma a_full_first_pool_never_grows_witness :
  index_pool (fr (Examples.start (Examples.first_of_pool true false) [7] 5))
  = [7].
Proof.
  refine (proj1 (@a_full_first_pool_never_grows unit
                   (Examples.first_of_pool true false) Examples.numerics
                   (Examples.engine [7] Examples.half 5)
                   (Examples.start (Examples.first_of_pool true false) [7] 5)
                   (Examples.start (Examples.first_of_pool true false) [7] 5)
                   _ _ _ (head_start _ _ _))).
  - vm_compute. reflexivity.
  - vm_compute. reflexivity.
  - vm_compute. reflexivity.
Defined.

(** ** Where the samples are drawn, and where the best result comes from *)

Section Provenance.

Variable MS : Type.
Variable M : SampleConsensusModel MS.
Variable L : Numerics.

Implicit Types s : state MS.

(** The calls of one pass: none when step 1 ends the loop, otherwise
    one [getSamples] on the pool that step 1 left, followed by calls
    that are not [getSamples]. *)
Lemma trial_draws_on_pool s r :
  trial M L s = Ok r ->
  (exists s', grow s = Ok (Break s') /\ r = Break s' /\
              calls (this s') = calls (this s)) \/
  (exists s1 more,
      grow s = Ok (Continue s1) /\
      calls (this (state_of r)) =
        more ++ GetSamples (iterations_ (this s)) (index_pool (fr s1))
        :: calls (this s) /\
      forall full lo hi, Forall (draws_on_prefix full lo hi) more).
Proof.
  intros H. apply trial_inv in H.
  destruct H as [s' Hg | s1 s2 Hg Hd Hsel | s1 s2 s3 s4 Hg Hd Hsel He Hi
                | s1 s2 s3 s5 s6 Hg Hd Hsel He Hf Hi].
  - left. exists s'. repeat split; auto.
    open_phases. trace_back. reflexivity.
  - right. exists s1, []. split; [assumption|].
    open_phases. split; [trace_back; reflexivity|]. constructor.
  - right. exists s1, [ComputeModelCoefficients (selection (fr s2))].
    split; [assumption|].
    open_phases. split; [trace_back; reflexivity|].
    intros. repeat constructor.
  - right. rewrite state_of_cap.
    destruct (select_shape M s3) as (ms & found & Hs1 & Hs2).
    exists s1, [SelectWithinDistance (indices_ (this s3))
                  (model_coefficients (fr s3)) (threshold_ (this s3));
                ComputeModelCoefficients (selection (fr s2))].
    split; [assumption|].
    apply fit_cases in Hf. destruct Hf as [-> | [_ Hf]]; open_phases;
      (split; [trace_back; reflexivity|intros; repeat constructor]).
Qed.

(** X11.  Every [getSamples] call of a run is made while the indices
    of the model are a prefix of the index vector of the run, of a
    length between the sample size and the number of indices.  (Index
    vectors of fewer than [2^24] elements, sample size at most their
    number.) *)
Theorem every_draw_is_on_a_prefix_of_the_indices
    (fuel : nat) (e : SampleConsensus MS) (b : bool) (e' : SampleConsensus MS) :
  computeModel M L fuel e = Ok (b, e') ->
  feq (threshold_ e) DBL_MAX = false ->
  to_unsigned (getSampleSize M) <= Z.of_nat (length (indices_ e)) ->
  Z.of_nat (length (indices_ e)) < 2 ^ 24 ->
  exists new,
    calls e' = new ++ calls e /\
    Forall (draws_on_prefix (indices_ e) (to_unsigned (getSampleSize M))
              (Z.of_nat (length (indices_ e))))
      new.
Proof.
  intros H Hthr Hm Hlen.
  destruct (computeModel_exits M L _ _ H Hthr) as (s0 & s & Hinit & Hex & Hres).
  pose proof (init_shape M e Hinit)
    as (Hthis & _ & _ & _ & _ & HN & Hm0 & _).
  assert (N (fr s0) = Z.of_nat (length (indices_ e))) as HN'.
  { rewrite HN. unfold Vec.size. apply to_unsigned_small. unfold UINT_MAX. lia. }
  assert (m (fr s0) <= N (fr s0)) as Hle by lia.
  assert (0 <= m (fr s0)) as Hpos by (rewrite Hm0; apply to_unsigned_range).
  rewrite <- Hm0. set (P := draws_on_prefix (indices_ e) (m (fr s0))
                              (Z.of_nat (length (indices_ e)))).
  assert (forall a r, at_head M L s0 a -> trial M L a = Ok r ->
                      exists more, calls (this (state_of r)) = more ++ calls (this a) /\
                                   Forall P more) as Hstep.
  { intros a r Hh Hr.
    destruct (at_head_pool e Hinit Hle Hlen Hh) as (k & Hk).
    destruct (trial_draws_on_pool a Hr)
      as [(s' & _ & -> & Hc) | (s1 & more & Hg & Hc & Hmore)].
    - exists []. split; [exact Hc|constructor].
    - exists (more ++ [GetSamples (iterations_ (this a)) (index_pool (fr s1))]).
      split; [rewrite Hc, <- app_assoc; reflexivity|].
      apply Forall_app. split; [apply Hmore|].
      constructor; [|constructor]. unfold P. simpl.
      destruct (grow_pool Hlen Hpos Hk Hg)
        as [E | [(Hlt & s1' & E & Hk1 & _) | (_ & E)]]; try discriminate.
      + injection E as ->. destruct Hk as (_ & Hr' & Hp & _).
        exists k. split; [lia|exact Hp].
      + injection E as ->. destruct Hk1 as (_ & Hr' & Hp & _).
        exists (k + 1). split; [lia|exact Hp]. }
  assert (forall a, at_head M L s0 a ->
                    exists new, calls (this a) = new ++ calls e /\ Forall P new)
    as Hhead.
  { intros a Hh. induction Hh as [|a a' Hh IH _ Hr].
    - exists []. rewrite Hthis. split; [reflexivity|constructor].
    - destruct IH as (new & Hc & Hall).
      destruct (Hstep a (Continue a') Hh Hr) as (more & Hc' & Hmore).
      simpl in Hc'. exists (more ++ new).
      split; [rewrite Hc', Hc, app_assoc; reflexivity|].
      apply Forall_app; auto. }
  assert (exists new, calls (this s) = new ++ calls e /\ Forall P new)
    as (new & Hc & Hall).
  { destruct Hex as [s Hh _ | a s Hh _ Hr]; [auto|].
    destruct (Hhead a Hh) as (new & Hc & Hall).
    destruct (Hstep a (Break s) Hh Hr) as (more & Hc' & Hmore).
    simpl in Hc'. exists (more ++ new).
    split; [rewrite Hc', Hc, app_assoc; reflexivity|].
    apply Forall_app; auto. }
  exists new. destruct Hres as [(_ & _ & ->) | (_ & _ & ->)]; simpl; auto.
Qed.

(** X8.  A trial whose counter is greater than [T_prime_n] replaces the
    last index that [getSamples] selected by the last index of the
    pool, so that the selection keeps its length; when [getSamples]
    selected nothing, the [pop_back] that comes first is undefined.
    (Index vectors of fewer than [2^24] elements, sample size between
    one and their number.) *)
Theorem a_late_trial_samples_the_last_index_of_the_pool
    (e : SampleConsensus MS) s0 s s1 :
  init M e = Ok s0 ->
  1 <= m (fr s0) <= N (fr s0) ->
  Z.of_nat (length (indices_ e)) < 2 ^ 24 ->
  at_head M L s0 s ->
  grow s = Ok (Continue s1) ->
  flt (T_prime_n (fr s1)) (float_of_Z (iterations_ (this s1))) = true ->
  let drawn :=
    snd (getSamples M (sac_model_ (this s1)) (index_pool (fr s1))
           (iterations_ (this s1))) in
  (drawn = [] -> draw M s1 = Undefined) /\
  (drawn <> [] ->
   exists s2 front x,
     draw M s1 = Ok s2 /\
     index_pool (fr s1) = front ++ [x] /\
     selection (fr s2) = removelast drawn ++ [x] /\
     length (selection (fr s2)) = length drawn).
Proof.
  intros Hinit Hm Hlen Hh Hg Hlate drawn.
  assert (0 <= m (fr s0)) as Hpos by lia.
  destruct (at_head_pool e Hinit (proj2 Hm) Hlen Hh) as (k & Hk).
  assert (exists k1, pool_is (indices_ e) (m (fr s0)) k1 s1) as (k1 & Hk1).
  { destruct (grow_pool Hlen Hpos Hk Hg)
      as [E | [(_ & s1' & E & Hk' & _) | (_ & E)]]; try discriminate;
      injection E as ->; eauto. }
  destruct Hk1 as (Hn & Hr & Hp & _).
  destruct (@nth_error_in_range (indices_ e) (Z.to_nat (k1 - 1))) as [x Hx];
    [lia|].
  assert (index_pool (fr s1) = firstn (Z.to_nat (k1 - 1)) (indices_ e) ++ [x])
    as Hlast.
  { rewrite Hp. replace (Z.to_nat k1) with (S (Z.to_nat (k1 - 1))) by lia.
    apply firstn_snoc. exact Hx. }
  assert (Vec.at_ (index_pool (fr s1)) (k1 - 1) = Ok x) as Hat.
  { unfold Vec.at_. rewrite Hp, nth_error_firstn.
    destruct (Nat.ltb_spec (Z.to_nat (k1 - 1)) (Z.to_nat k1)); [|lia].
    rewrite Hx. reflexivity. }
  assert (forall sel : list Z,
             drawn = sel ->
             draw M s1 =
               (sel' <- (popped <- Vec.pop_back sel;; Ok (Vec.push_back popped x));;
                Ok (swap_indices
                      (on_frame (set_selection sel')
                         (on_this
                            (model_called
                               (fst (getSamples M (sac_model_ (this s1))
                                       (index_pool (fr s1)) (iterations_ (this s1))))
                               (GetSamples (iterations_ (this s1))
                                  (index_pool (fr s1))))
                            (swap_indices s1)))))) as Hdraw.
  { intros sel Hsel. unfold draw.
    cbn [swap_indices this fr indices_ set_indices_ sac_model_ iterations_
           on_this set_index_pool set_pool T_prime_n n model_called].
    subst drawn.
    destruct (getSamples M _ _ _) as [ms sel0]. simpl in Hsel. subst sel0.
    cbn [fst]. rewrite Hlate, Hn.
    rewrite fsub_int by lia. rewrite to_size_t_int by lia.
    destruct (Vec.pop_back sel) as [popped| | |]; cbn [bind]; try reflexivity.
    rewrite Hat. reflexivity. }
  split.
  - intros E. rewrite (Hdraw [] E). reflexivity.
  - intros Hne. destruct drawn as [|y rest] eqn:Ed; [congruence|].
    rewrite (Hdraw (y :: rest) eq_refl).
    cbn [Vec.pop_back bind Vec.push_back].
    eexists. exists (firstn (Z.to_nat (k1 - 1)) (indices_ e)), x.
    split; [reflexivity|]. split; [exact Hlast|].
    cbn [swap_indices fr on_frame set_selection selection set_index_pool set_pool].
    split; [reflexivity|].
    assert (y :: rest <> []) as Hyr by discriminate.
    pose proof (@app_removelast_last _ (y :: rest) 0 Hyr) as Hsplit.
    remember (y :: rest) as l eqn:El. clear El.
    unfold Vec.push_back. rewrite Hsplit at 2.
    rewrite !length_app. reflexivity.
Qed.

(** A trial keeps the stored best result and its count, or the result
    it stores was estimated and evaluated in this trial. *)
Lemma trial_provenance s r :
  trial M L s = Ok r ->
  exists more,
    calls (this (state_of r)) = more ++ calls (this s) /\
    ((best (state_of r) = best s /\
      I_N_best (fr (state_of r)) = I_N_best (fr s)) \/
     (In (ComputeModelCoefficients (model_ (this (state_of r)))) more /\
      In (SelectWithinDistance (indices_ (this s))
            (model_coefficients_ (this (state_of r))) (threshold_ (this s)))
         more)).
Proof.
  intros H. apply trial_inv in H. unfold best.
  destruct H as [s' Hg | s1 s2 Hg Hd Hsel | s1 s2 s3 s4 Hg Hd Hsel He Hi
                | s1 s2 s3 s5 s6 Hg Hd Hsel He Hf Hi].
  - exists []. open_phases. split; [trace_back; reflexivity|].
    left. split; trace_back; reflexivity.
  - exists [GetSamples (iterations_ (this s)) (index_pool (fr s1))].
    open_phases. split; [trace_back; reflexivity|].
    left. split; trace_back; reflexivity.
  - exists [ComputeModelCoefficients (selection (fr s2));
            GetSamples (iterations_ (this s)) (index_pool (fr s1))].
    open_phases. split; [trace_back; reflexivity|].
    left. split; trace_back; reflexivity.
  - rewrite state_of_cap.
    destruct (select_shape M s3) as (ms & found & Hs1 & Hs2).
    exists [SelectWithinDistance (indices_ (this s3)) (model_coefficients (fr s3))
              (threshold_ (this s3));
            ComputeModelCoefficients (selection (fr s2));
            GetSamples (iterations_ (this s)) (index_pool (fr s1))].
    apply fit_cases in Hf. destruct Hf as [-> | [_ Hf]].
    + open_phases. split; [trace_back; reflexivity|].
      left. split; trace_back; reflexivity.
    + assert (indices_ (this s3) = indices_ (this s) /\
              threshold_ (this s3) = threshold_ (this s)) as [Ei Et]
        by (pose proof Hg; pose proof Hd; pose proof He; open_phases;
            split; trace_back; reflexivity).
      assert (selection (fr (select M s3)) = selection (fr s2) /\
              model_coefficients (fr (select M s3)) = model_coefficients (fr s3))
        as [Es Em]
        by (pose proof He; open_phases; split; trace_back; reflexivity).
      assert (calls (this (select M s3)) =
              SelectWithinDistance (indices_ (this s3)) (model_coefficients (fr s3))
                (threshold_ (this s3))
              :: ComputeModelCoefficients (selection (fr s2))
              :: GetSamples (iterations_ (this s)) (index_pool (fr s1))
              :: calls (this s)) as Ec
        by (open_phases; trace_back; reflexivity).
      apply improve_shape in Hf. destruct Hf as (Hthis & _).
      apply incr_shape in Hi. destruct Hi as [_ ->].
      cbn [this on_this set_iterations_ calls model_ model_coefficients_].
      rewrite Hthis.
      cbn [set_best calls model_ model_coefficients_]. rewrite Ec, Es, Em, Ei, Et.
      split; [reflexivity|]. right. split; simpl; auto.
Qed.

(** X7.  When the loop of a run ends with a positive count of best
    inliers, the stored selection is one on which this run called
    [computeModelCoefficients], and the stored coefficients are ones
    with which this run called [selectWithinDistance] on the index
    vector of the run and with the threshold of the engine. *)
Theorem the_best_result_was_estimated_in_this_run
    (fuel : nat) (e : SampleConsensus MS) s0 s :
  init M e = Ok s0 ->
  loop M L fuel s0 = Ok s ->
  0 < I_N_best (fr s) ->
  exists new,
    calls (this s) = new ++ calls e /\
    In (ComputeModelCoefficients (model_ (this s))) new /\
    In (SelectWithinDistance (indices_ e) (model_coefficients_ (this s))
          (threshold_ e))
       new.
Proof.
  intros Hinit Hloop Hpos.
  pose proof (init_shape M e Hinit) as (Hthis & _ & _ & HI & _).
  apply loop_exits in Hloop.
  assert (exists new,
             calls (this s) = new ++ calls e /\
             indices_ (this s) = indices_ e /\
             threshold_ (this s) = threshold_ e /\
             (0 < I_N_best (fr s) ->
              In (ComputeModelCoefficients (model_ (this s))) new /\
              In (SelectWithinDistance (indices_ e) (model_coefficients_ (this s))
                    (threshold_ e)) new)) as (new & Hc & _ & _ & Hin).
  { clear Hpos. revert s Hloop. apply exits_invariant.
    - exists []. rewrite Hthis, HI. simpl. repeat split; lia.
    - intros a r (new & Hc & Hi & Ht & Hin) Hr.
      pose proof (trial_fixed M L a Hr) as Hf. unfold fixed in Hf.
      injection Hf as Hi' Ht' _.
      destruct (trial_provenance a Hr) as (more & Hc' & Hcase).
      exists (more ++ new).
      split; [rewrite Hc', Hc, app_assoc; reflexivity|].
      split; [congruence|]. split; [congruence|].
      intros Hp. destruct Hcase as [[Hb Hn] | [Hcmc Hswd]].
      + unfold best in Hb. injection Hb as Hm Hmc _.
        rewrite Hm, Hmc. rewrite Hn in Hp.
        destruct (Hin Hp) as [Hcmc Hswd].
        split; apply in_or_app; right; assumption.
      + rewrite Hi, Ht in Hswd.
        split; apply in_or_app; left; assumption. }
  exists new. destruct (Hin Hpos). auto.
Qed.

End Provenance.

Lemma every_draw_is_on_a_prefix_of_the_indices_witness :
  exists b e' new,
    computeModel (Examples.first_of_pool true false) Examples.numerics 10
      (Examples.engine [0; 1; 2] Examples.half 3) = Ok (b, e') /\
    calls e' = new ++ [] /\
    Forall (draws_on_prefix [0; 1; 2] 1 3) new.
Proof.
  destruct (computeModel (Examples.first_of_pool true false) Examples.numerics 10
              (Examples.engine [0; 1; 2] Examples.half 3))
    as [[b e']| | |] eqn:H; [|vm_compute in H; discriminate H..].
  destruct (@every_draw_is_on_a_prefix_of_the_indices unit
              (Examples.first_of_pool true false) Examples.numerics 10
              (Examples.engine [0; 1; 2] Examples.half 3) b e' H eq_refl)
    as (new & Hc & Hall).
  - vm_compute. discriminate.
  - vm_compute. reflexivity.
  - exists b, e', new. split; [reflexivity|]. split; [exact Hc|exact Hall].
Defined.

Lemma a_late_trial_samples_the_last_index_of_the_pool_witness :
  exists s2,
    draw (Examples.first_of_pool true false)
      (Examples.after_trials (Examples.first_of_pool true false) 2
         (Examples.start (Examples.first_of_pool true false) [7] 5)) = Ok s2 /\
    length (selection (fr s2)) = 1%nat.
Proof.
  assert (at_head (Examples.first_of_pool true false) Examples.numerics
            (Examples.start (Examples.first_of_pool true false) [7] 5)
            (Examples.after_trials (Examples.first_of_pool true false) 2
               (Examples.start (Examples.first_of_pool true false) [7] 5)))
    as Hh.
  { apply head_next
      with (s := Examples.after_trials (Examples.first_of_pool true false) 1
                   (Examples.start (Examples.first_of_pool true false) [7] 5)).
    - apply head_next
        with (s := Examples.start (Examples.first_of_pool true false) [7] 5).
      + apply head_start.
      + vm_compute. reflexivity.
      + vm_compute. reflexivity.
    - vm_compute. reflexivity.
    - vm_compute. reflexivity. }
  assert (init (Examples.first_of_pool true false)
            (Examples.engine [7] Examples.half 5)
          = Ok (Examples.start (Examples.first_of_pool true false) [7] 5))
    as Hinit by (vm_compute; reflexivity).
  assert (1 <= m (fr (Examples.start (Examples.first_of_pool true false)
                        [7] 5))
          <= N (fr (Examples.start (Examples.first_of_pool true false)
                      [7] 5)))
    as Hm by (vm_compute; split; discriminate).
  assert (Z.of_nat (length (indices_ (Examples.engine [7] Examples.half 5)))
          < 2 ^ 24) as Hlen by (vm_compute; reflexivity).
  assert (grow
            (Examples.after_trials (Examples.first_of_pool true false) 2
               (Examples.start (Examples.first_of_pool true false) [7] 5))
          = Ok (Continue
                  (Examples.after_trials (Examples.first_of_pool true false) 2
                     (Examples.start (Examples.first_of_pool true false)
                        [7] 5))))
    as Hg by (vm_compute; reflexivity).
  assert (flt
            (T_prime_n
               (fr (Examples.after_trials (Examples.first_of_pool true false)
                      2
                      (Examples.start (Examples.first_of_pool true false)
                         [7] 5))))
            (float_of_Z
               (iterations_
                  (this
                     (Examples.after_trials
                        (Examples.first_of_pool true false) 2
                        (Examples.start (Examples.first_of_pool true false)
                           [7] 5)))))
          = true) as Hlate by (vm_compute; reflexivity).
  destruct (@a_late_trial_samples_the_last_index_of_the_pool unit
              (Examples.first_of_pool true false) Examples.numerics
              (Examples.engine [7] Examples.half 5)
              (Examples.start (Examples.first_of_pool true false) [7] 5)
              (Examples.after_trials (Examples.first_of_pool true false) 2
                 (Examples.start (Examples.first_of_pool true false) [7] 5))
              (Examples.after_trials (Examples.first_of_pool true false) 2
                 (Examples.start (Examples.first_of_pool true false) [7] 5))
              Hinit Hm Hlen Hh Hg Hlate)
    as [_ Hsome].
  destruct Hsome as (s2 & front & x & Hd & _ & _ & Hl).
  - vm_compute. discriminate.
  - exists s2. split; [exact Hd|]. rewrite Hl. vm_compute. reflexivity.
Defined.

Lemma the_best_result_was_estimated_in_this_run_witness :
  exists s new,
    loop (Examples.first_of_pool true true) Examples.numerics 10
      (Examples.start (Examples.first_of_pool true true) [0; 1; 2] 5) = Ok s /\
    calls (this s) = new ++ [] /\
    In (ComputeModelCoefficients (model_ (this s))) new.
Proof.
  destruct (loop (Examples.first_of_pool true true) Examples.numerics 10
              (Examples.start (Examples.first_of_pool true true) [0; 1; 2] 5))
    as [s| | |] eqn:H; [|vm_compute in H; discriminate H..].
  assert (init (Examples.first_of_pool true true)
            (Examples.engine [0; 1; 2] Examples.half 5)
          = Ok (Examples.start (Examples.first_of_pool true true)
                  [0; 1; 2] 5))
    as Hinit by (vm_compute; reflexivity).
  destruct (@the_best_result_was_estimated_in_this_run unit
              (Examples.first_of_pool true true) Examples.numerics 10
              (Examples.engine [0; 1; 2] Examples.half 5)
              (Examples.start (Examples.first_of_pool true true) [0; 1; 2] 5)
              s Hinit H)
    as (new & Hc & Hin & _).
  - vm_compute in H. injection H as <-. vm_compute. reflexivity.
  - exists s, new. split; [reflexivity|]. split; [exact Hc|exact Hin].
Defined.

(** ** The candidates that the search accepts, and the budget of a run *)

Section Accepts.

Variable L : Numerics.

(** X9.  The search for a better [n_star] returns the best candidate
    it was started with, or a candidate that it accepted: one more than
    the index of an inlier, greater than the sample size, with the
    ratio of its inlier count to it as its [epsilon], this ratio greater
    than [epsilon_n_star], and an inlier count that is not below the
    minimum [m + ceil (quantile)] of Equation 9 for this candidate. *)
Theorem an_accepted_candidate_passed_every_test
    (m : Z) (eps : float) (l : list Z) (c c' : scan_state) :
  scan L m eps l c = Ok c' ->
  (possible_n_star_best c' = possible_n_star_best c /\
   I_possible_n_star_best c' = I_possible_n_star_best c /\
   epsilon_possible_n_star_best c' = epsilon_possible_n_star_best c) \/
  (exists x I_min,
      In x l /\ x < INT_MAX /\
      possible_n_star_best c' = to_unsigned (x + 1) /\
      m < possible_n_star_best c' /\
      epsilon_possible_n_star_best c' =
        fdiv (float_of_Z (I_possible_n_star_best c'))
          (float_of_Z (possible_n_star_best c')) /\
      flt eps (epsilon_possible_n_star_best c') = true /\
      to_unsigned_int
        (dadd (double_of_Z m)
           (ceil (double_of_float
                    (binomial_quantile L (possible_n_star_best c')))))
      = Ok I_min /\
      I_min <= I_possible_n_star_best c').
Proof.
  revert c. induction l as [|y l IH]; intros c; simpl.
  - intros H; injection H as <-. left. auto.
  - destruct (Z.ltb_spec y INT_MAX) as [Hy|Hy]; [|discriminate].
    destruct (Z.leb_spec (to_unsigned (y + 1)) m) as [Hle|Hgt].
    + intros H; injection H as <-. left. auto.
    + destruct (flt eps _ && flt _ _) eqn:Hc.
      * intros H. bind_inv H. rename a into I_min.
        destruct (Z.ltb_spec (I_possible_n_star c) I_min) as [Hlt|Hge].
        -- injection H as <-. left. auto.
        -- apply IH in H. cbn [possible_n_star_best I_possible_n_star_best
                                 epsilon_possible_n_star_best] in H.
           apply andb_prop in Hc. destruct Hc as [Heps _].
           right. destruct H as [(E1 & E2 & E3) | (x & I' & Hin & Hrest)].
           ++ exists y, I_min. rewrite E1, E2, E3.
              repeat split; auto.
           ++ exists x, I'. split; [right; exact Hin|exact Hrest].
      * intros H. apply IH in H.
        cbn [possible_n_star_best I_possible_n_star_best
               epsilon_possible_n_star_best] in H.
        destruct H as [H | (x & I' & Hin & Hrest)]; [left; exact H|].
        right. exists x, I'. split; [right; exact Hin|exact Hrest].
Qed.

End Accepts.

Lemma an_accepted_candidate_passed_every_test_witness :
  exists c',
    scan Examples.unit_quantile 1 (float_of_Z 0) [3; 0] (scan_start 6 3)
    = Ok c' /\
    possible_n_star_best c' = 4.
Proof.
  destruct (scan Examples.unit_quantile 1 (float_of_Z 0) [3; 0]
              (scan_start 6 3))
    as [c'| | |] eqn:H; [|vm_compute in H; discriminate H..].
  exists c'. split; [reflexivity|].
  destruct (@an_accepted_candidate_passed_every_test Examples.unit_quantile
              1 (float_of_Z 0) [3; 0] (scan_start 6 3) c' H)
    as [(E & _) | (x & I_min & Hin & _ & E & _)].
  - vm_compute in H. injection H as <-. vm_compute in E. discriminate E.
  - destruct Hin as [<- | [<- | []]].
    + rewrite E. reflexivity.
    + vm_compute in H. injection H as <-. vm_compute in E. discriminate E.
Defined.

(** ** A run that counts no inlier *)

Section Stale.

Variable MS : Type.
Variable M : SampleConsensusModel MS.
Variable L : Numerics.

Implicit Types s : state MS.

Lemma select_inliers s :
  inliers (fr (select M s)) =
  snd (selectWithinDistance M (sac_model_ (this s)) (indices_ (this s))
         (model_coefficients (fr s)) (threshold_ (this s))).
Proof.
  unfold select.
  destruct (selectWithinDistance M _ _ _ _) as [ms found]. reflexivity.
Qed.

Lemma trial_without_inliers s r :
  (forall ms idx mc thr, snd (selectWithinDistance M ms idx mc thr) = []) ->
  I_N_best (fr s) = 0 ->
  trial M L s = Ok r ->
  best (state_of r) = best s /\ I_N_best (fr (state_of r)) = 0.
Proof.
  intros Hnone Hz H.
  enough (best (state_of r) = best s /\
          I_N_best (fr (state_of r)) = I_N_best (fr s)) as [Hb Hn]
    by (split; congruence).
  apply trial_inv in H. unfold best.
  destruct H as [s' Hg | s1 s2 Hg Hd Hsel | s1 s2 s3 s4 Hg Hd Hsel He Hi
                | s1 s2 s3 s5 s6 Hg Hd Hsel He Hf Hi].
  - open_phases. split; trace_back; reflexivity.
  - open_phases. split; trace_back; reflexivity.
  - open_phases. split; trace_back; reflexivity.
  - rewrite state_of_cap.
    pose proof (select_inliers s3) as Hin. rewrite Hnone in Hin.
    destruct (select_shape M s3) as (ms & found & Hs1 & Hs2).
    apply fit_cases in Hf. destruct Hf as [-> | [Hlt Hf]].
    + open_phases. split; trace_back; reflexivity.
    + exfalso.
      assert (I_N_best (fr (select M s3)) = I_N_best (fr s)) as Hold
        by (open_phases; trace_back; reflexivity).
      rewrite Hold, Hz, Hin in Hlt. vm_compute in Hlt. discriminate Hlt.
Qed.

(** X13.  [computeModel] does not clear the stored selection before its
    loop.  When the model finds no inlier for any coefficients, the run
    stores nothing: the selection and the coefficients of the object are
    those it held before the call, and the value returned is [true]
    exactly when that earlier selection was not empty.  The inliers are
    cleared when it was empty and are the earlier ones when it was
    not. *)
Theorem a_run_without_inliers_returns_what_was_stored
    (fuel : nat) (e : SampleConsensus MS) b e' :
  (forall ms idx mc thr, snd (selectWithinDistance M ms idx mc thr) = []) ->
  feq (threshold_ e) DBL_MAX = false ->
  computeModel M L fuel e = Ok (b, e') ->
  model_ e' = model_ e /\
  model_coefficients_ e' = model_coefficients_ e /\
  b = negb (Vec.empty (model_ e)) /\
  inliers_ e' = (if Vec.empty (model_ e) then [] else inliers_ e).
Proof.
  intros Hnone Hthr H.
  destruct (computeModel_exits M L _ _ H Hthr) as (s0 & s & Hinit & Hex & Hend).
  pose proof (init_shape M e Hinit) as (Hthis & _ & _ & HI & _).
  assert (best s = best s0 /\ I_N_best (fr s) = 0) as [Hb _].
  { clear Hend. revert s Hex. apply exits_invariant; [auto|].
    intros s r [Hb Hz] Ht.
    destruct (trial_without_inliers s Hnone Hz Ht) as [Hb' Hz'].
    split; [congruence|assumption]. }
  unfold best in Hb. rewrite Hthis in Hb. simpl in Hb.
  injection Hb as Hm Hc Hi.
  destruct Hend as [(Hmod & -> & ->) | (Hmod & -> & ->)]; simpl.
  - rewrite Hm in Hmod. rewrite Hm, Hc, Hmod. simpl. auto.
  - rewrite Hm in Hmod. rewrite Hm, Hc, Hi.
    destruct (model_ e); [congruence|]. simpl. auto.
Qed.

End Stale.

Lemma a_run_without_inliers_returns_what_was_stored_witness :
  exists e',
    computeModel (Examples.first_of_pool true false) Examples.numerics 10
      (set_best [] [4] (model_coefficients_
                          (Examples.engine [0; 1; 2] Examples.half 3))
         (Examples.engine [0; 1; 2] Examples.half 3))
    = Ok (true, e') /\
    model_ e' = [4].
Proof.
  destruct (computeModel (Examples.first_of_pool true false)
              Examples.numerics 10
              (set_best [] [4]
                 (model_coefficients_
                    (Examples.engine [0; 1; 2] Examples.half 3))
                 (Examples.engine [0; 1; 2] Examples.half 3)))
    as [[b e']| | |] eqn:H; [|vm_compute in H; discriminate H..].
  destruct (@a_run_without_inliers_returns_what_was_stored unit
              (Examples.first_of_pool true false) Examples.numerics 10
              (set_best [] [4]
                 (model_coefficients_
                    (Examples.engine [0; 1; 2] Examples.half 3))
                 (Examples.engine [0; 1; 2] Examples.half 3))
              b e')
    as (Hm & _ & Hb & _).
  - intros ms idx mc thr. reflexivity.
  - vm_compute. reflexivity.
  - exact H.
  - exists e'. rewrite Hb. split; [reflexivity|exact Hm].
Defined.

(** ** The first trial and the cap *)

Section Cap.

Variable MS : Type.
Variable M : SampleConsensusModel MS.
Variable L : Numerics.

Implicit Types s : state MS.

(** C2.  The cap on the trials does not prevent the first trial.  The
    test of the loop compares the counter with [k_n_star] only, and the
    cap is compared after the body, so the first trial of a run is
    executed whatever [max_iterations_] is, zero and negative values
    included: every run with a threshold set that returns has called
    [getSamples] with the counter 0 before anything else it asked of
    the model. *)
Theorem the_first_trial_runs_whatever_the_cap_is
    (fuel : nat) (e : SampleConsensus MS) (b : bool) (e' : SampleConsensus MS) :
  feq (threshold_ e) DBL_MAX = false ->
  computeModel M L fuel e = Ok (b, e') ->
  exists more pool, calls e' = more ++ GetSamples 0 pool :: calls e.
Proof.
  intros Hthr H.
  destruct (computeModel_exits M L _ _ H Hthr) as (s0 & s & Hinit & Hex & Hend).
  pose proof (init_shape M e Hinit) as (Hthis & _).
  destruct (first_trial_entered M e Hinit) as [Hbud Hgrow].
  assert (calls e' = calls (this s)) as ->
    by (destruct Hend as [(_ & _ & ->) | (_ & _ & ->)]; reflexivity).
  set (Q := fun s => exists more pool,
                 calls (this s) = more ++ GetSamples 0 pool :: calls e).
  assert (forall s1 r, s1 = s0 \/ Q s1 -> trial M L s1 = Ok r ->
                       Q (state_of r)) as Hstep.
  { intros s1 r [-> | (more & pool & Hc)] Ht.
    - destruct (trial_calls M L s0 Ht) as [(s' & Hg & _) | (more & Hc & _)];
        [congruence|].
      exists more, (index_pool (fr (state_of r))).
      rewrite Hc, Hthis. reflexivity.
    - destruct (trial_history M L s1 Ht) as (more' & Hc' & _).
      exists (more' ++ more), pool. rewrite Hc', Hc, app_assoc. reflexivity. }
  assert (forall s1, at_head M L s0 s1 -> s1 = s0 \/ Q s1) as Hhead.
  { apply at_head_invariant; [left; reflexivity|].
    intros s1 s' HP Ht. right. exact (Hstep s1 (Continue s') HP Ht). }
  destruct Hex as [s Hh Hout | s1 s Hh _ Ht].
  - destruct (Hhead s Hh) as [-> | HQ]; [contradiction|exact HQ].
  - exact (Hstep s1 (Break s) (Hhead s1 Hh) Ht).
Qed.

End Cap.

Lemma the_first_trial_runs_whatever_the_cap_is_witness :
  computeModel (Examples.first_of_pool true true) Examples.numerics 10
    (Examples.engine [0; 1] Examples.half 0)
  = Ok (true,
        {| sac_model_ := tt; indices_ := [0; 1];
           threshold_ := Examples.half; max_iterations_ := 0;
           iterations_ := 1; inliers_ := [0; 1]; model_ := [0];
           model_coefficients_ := [];
           calls := [SelectWithinDistance [0; 1] [] Examples.half;
                     ComputeModelCoefficients [0];
                     GetSamples 0 [0]] |})
  /\ exists more pool,
       [SelectWithinDistance [0; 1] [] Examples.half;
        ComputeModelCoefficients [0];
        GetSamples 0 [0]]
       = more ++ GetSamples 0 pool :: [].
Proof.
  assert (feq (threshold_ (Examples.engine [0; 1] Examples.half 0)) DBL_MAX
          = false) as Hthr by (vm_compute; reflexivity).
  assert (computeModel (Examples.first_of_pool true true) Examples.numerics 10
            (Examples.engine [0; 1] Examples.half 0)
          = Ok (true,
                {| sac_model_ := tt; indices_ := [0; 1];
                   threshold_ := Examples.half; max_iterations_ := 0;
                   iterations_ := 1; inliers_ := [0; 1]; model_ := [0];
                   model_coefficients_ := [];
                   calls := [SelectWithinDistance [0; 1] [] Examples.half;
                             ComputeModelCoefficients [0];
                             GetSamples 0 [0]] |}))
    as Hrun by (vm_compute; reflexivity).
  split; [exact Hrun|].
  exact (@the_first_trial_runs_whatever_the_cap_is unit
           (Examples.first_of_pool true true) Examples.numerics 10
           (Examples.engine [0; 1] Examples.half 0) true _ Hthr Hrun).
Defined.

(** ** What a run returns *)

Section Outcome.

Variable MS : Type.
Variable M : SampleConsensusModel MS.
Variable L : Numerics.

Implicit Types s : state MS.

(** The states at the test of the loop lie on one line. *)
Lemma at_head_front a b :
  at_head M L a b ->
  b = a \/
  exists a1, in_budget a /\ trial M L a = Ok (Continue a1) /\ at_head M L a1 b.
Proof.
  induction 1 as [|s s' Hh IH Hb Ht]; [left; reflexivity|].
  right. destruct IH as [-> | (a1 & Hba & Hta & Hh1)].
  - exists s'. repeat split; auto. apply head_start.
  - exists a1. repeat split; auto. eapply head_next; eauto.
Qed.

Lemma at_head_linear s0 a b :
  at_head M L s0 a -> at_head M L s0 b ->
  at_head M L a b \/ at_head M L b a.
Proof.
  intros Ha Hb. induction Hb as [|b b' Hb IH Hbud Ht].
  - right. exact Ha.
  - destruct IH as [Hab | Hba].
    + left. eapply head_next; eauto.
    + destruct (at_head_front Hba) as [-> | (b1 & _ & Ht1 & Hh1)].
      * left. eapply head_next; [apply head_start|eassumption..].
      * right. rewrite Ht in Ht1. injection Ht1 as <-. exact Hh1.
Qed.

Lemma trial_count s r :
  trial M L s = Ok r -> I_N_best (fr s) <= I_N_best (fr (state_of r)).
Proof.
  intros Ht. destruct (trial_best M L s Ht) as [[_ E] | (Hlt & _)]; lia.
Qed.

Lemma at_head_count a b :
  at_head M L a b -> I_N_best (fr a) <= I_N_best (fr b).
Proof.
  induction 1 as [|s s' _ IH _ Ht]; [lia|].
  apply trial_count in Ht. simpl in Ht. lia.
Qed.

(** The count of a trial of the run is at most the count the loop ends
    with. *)
Lemma tried_before_the_end s0 s s1 r :
  exits M L s0 s -> tried M L s0 s1 r ->
  I_N_best (fr (state_of r)) <= I_N_best (fr s).
Proof.
  intros Hex (Hh1 & Hb1 & Ht1).
  destruct Hex as [s Hh Hout | sE s Hh Hb Ht].
  - destruct (at_head_linear Hh1 Hh) as [H | H];
      destruct (at_head_front H) as [E | (a1 & Hba & Hta & Hha)].
    + subst s. contradiction.
    + rewrite Ht1 in Hta. injection Hta as ->. simpl.
      apply at_head_count. exact Hha.
    + subst s1. contradiction.
    + contradiction.
  - pose proof (trial_count sE Ht) as Hlast. simpl in Hlast.
    destruct (at_head_linear Hh1 Hh) as [H | H];
      destruct (at_head_front H) as [E | (a1 & Hba & Hta & Hha)].
    + subst sE. rewrite Ht1 in Ht. injection Ht as ->. simpl. lia.
    + rewrite Ht1 in Hta. injection Hta as ->. simpl.
      apply at_head_count in Hha. lia.
    + subst s1. rewrite Ht1 in Ht. injection Ht as ->. simpl. lia.
    + rewrite Ht in Hta. discriminate Hta.
Qed.

(** A run none of whose trials was accepted leaves the stored result
    and the count as they were. *)
Lemma quiet_run s0 s :
  (forall s1 r, tried M L s0 s1 r -> ~ accepted s1 r) ->
  exits M L s0 s ->
  best s = best s0 /\ I_N_best (fr s) = I_N_best (fr s0).
Proof.
  intros Hq Hex.
  assert (forall s1 r, tried M L s0 s1 r ->
                       best (state_of r) = best s1 /\
                       I_N_best (fr (state_of r)) = I_N_best (fr s1)) as Hkeep.
  { intros s1 r Htr. pose proof (Hq s1 r Htr) as Hn.
    destruct Htr as (_ & _ & Ht).
    destruct (trial_best M L s1 Ht) as [Hk | (Hlt & _)]; [exact Hk|].
    unfold accepted in Hn. lia. }
  assert (forall s1, at_head M L s0 s1 ->
                     best s1 = best s0 /\
                     I_N_best (fr s1) = I_N_best (fr s0)) as Hhead.
  { intros s1 Hh. induction Hh as [|s1 s' Hh [IHb IHn] Hb Ht]; [auto|].
    destruct (Hkeep s1 (Continue s') (conj Hh (conj Hb Ht))) as [Eb En].
    simpl in Eb, En. split; congruence. }
  destruct Hex as [s Hh _ | s1 s Hh Hb Ht]; [auto|].
  destruct (Hhead s1 Hh) as [IHb IHn].
  destruct (Hkeep s1 (Break s) (conj Hh (conj Hb Ht))) as [Eb En].
  simpl in Eb, En. split; congruence.
Qed.

(** From the count at the end of the loop to the trials of the run. *)
Lemma no_trial_accepted (e : SampleConsensus MS) s0 s :
  init M e = Ok s0 ->
  exits M L s0 s ->
  I_N_best (fr s) = 0 ->
  forall s1 r, tried M L s0 s1 r -> ~ accepted s1 r.
Proof.
  intros Hinit Hex Hz s1 r Htr Hacc.
  pose proof (tried_before_the_end Hex Htr) as Hle.
  destruct Htr as (Hh & _ & _). apply at_head_count in Hh.
  apply init_shape in Hinit. destruct Hinit as (_ & _ & _ & H0 & _).
  unfold accepted in Hacc. lia.
Qed.

(** C8, as the code has it.  [computeModel] decides on the stored
    selection, which it does not clear before its loop.  On an engine
    that holds no selection when it is called, a run none of whose
    trials was accepted as the best returns [false], a value and not an
    exception, with the inliers cleared and no selection stored.  On
    every engine, a run in which a trial was accepted returns [true]
    with the object as the loop left it, whatever ended the loop: a
    selection is stored, the count of the best trial is positive, and
    the stored inliers are as many as this count. *)
Theorem a_run_without_a_best_on_a_fresh_engine_returns_false
    (fuel : nat) (e : SampleConsensus MS) s0 s :
  feq (threshold_ e) DBL_MAX = false ->
  init M e = Ok s0 ->
  loop M L fuel s0 = Ok s ->
  (model_ e = [] ->
   (forall s1 r, tried M L s0 s1 r -> ~ accepted s1 r) ->
   computeModel M L fuel e = Ok (false, set_inliers_ [] (this s)) /\
   inliers_ (set_inliers_ [] (this s)) = [] /\
   model_ (set_inliers_ [] (this s)) = []) /\
  ((exists s1 r, tried M L s0 s1 r /\ accepted s1 r) ->
   computeModel M L fuel e = Ok (true, this s) /\
   model_ (this s) <> [] /\
   0 < I_N_best (fr s) /\
   Vec.size (inliers_ (this s)) = I_N_best (fr s)).
Proof.
  intros Hthr Hinit Hloop.
  pose proof (loop_exits M L _ _ Hloop) as Hex.
  pose proof (init_shape M e Hinit) as (Hthis & _ & _ & H0 & _).
  split.
  - intros Hfresh Hq.
    destruct (quiet_run Hq Hex) as [Hb _].
    unfold best in Hb. rewrite Hthis in Hb. simpl in Hb.
    injection Hb as Hm _ _. rewrite Hfresh in Hm.
    unfold computeModel. rewrite Hthr, Hinit. simpl.
    rewrite Hloop. simpl. rewrite Hm. simpl. auto.
  - intros (s1 & r & Htr & Hacc).
    assert (0 < I_N_best (fr s)) as Hpos.
    { pose proof (tried_before_the_end Hex Htr) as Hle.
      destruct Htr as (Hh & _ & _). apply at_head_count in Hh.
      unfold accepted in Hacc. lia. }
    assert (recorded s) as Hrec.
    { clear Hpos Hloop. revert s Hex. apply exits_invariant.
      - unfold recorded. rewrite H0. lia.
      - intros s2 r2. apply trial_recorded. }
    destruct (Hrec Hpos) as [Hm Hsize].
    unfold computeModel. rewrite Hthr, Hinit. simpl.
    rewrite Hloop. simpl.
    destruct (model_ (this s)); [congruence|]. simpl. auto.
Qed.

End Outcome.

Lemma stale_selection_counterexample :
  exists s0 s,
    init (Examples.first_of_pool true false)
      (Examples.used_engine [0; 1; 2] 3) = Ok s0 /\
    loop (Examples.first_of_pool true false) Examples.numerics 10 s0 = Ok s /\
    (forall s1 r,
        tried (Examples.first_of_pool true false) Examples.numerics s0 s1 r ->
        ~ accepted s1 r) /\
    model_ (this s) <> [] /\
    computeModel (Examples.first_of_pool true false) Examples.numerics 10
      (Examples.used_engine [0; 1; 2] 3)
    = Ok (true,
          {| sac_model_ := tt; indices_ := [0; 1; 2];
             threshold_ := Examples.half; max_iterations_ := 3;
             iterations_ := 4; inliers_ := [1; 2]; model_ := [4];
             model_coefficients_ := [];
             calls := calls (this s) |}).
Proof.
  destruct (init (Examples.first_of_pool true false)
              (Examples.used_engine [0; 1; 2] 3))
    as [s0| | |] eqn:Hinit; [|vm_compute in Hinit; discriminate Hinit..].
  destruct (loop (Examples.first_of_pool true false) Examples.numerics 10 s0)
    as [s| | |] eqn:Hloop;
    [|vm_compute in Hinit; injection Hinit as <-;
      vm_compute in Hloop; discriminate Hloop..].
  exists s0, s. split; [reflexivity|]. split; [exact Hloop|].
  assert (I_N_best (fr s) = 0) as Hz.
  { vm_compute in Hinit. injection Hinit as <-.
    vm_compute in Hloop. injection Hloop as <-. reflexivity. }
  split; [|split].
  - exact (no_trial_accepted _ Hinit (loop_exits _ _ _ _ Hloop) Hz).
  - vm_compute in Hinit. injection Hinit as <-.
    vm_compute in Hloop. injection Hloop as <-. discriminate.
  - vm_compute in Hinit. injection Hinit as <-.
    vm_compute in Hloop. injection Hloop as <-. vm_compute. reflexivity.
Qed.

Lemma a_run_without_a_best_on_a_fresh_engine_returns_false_witness :
  (exists e',
      computeModel (Examples.first_of_pool true false) Examples.numerics 10
        (Examples.engine [0; 1; 2] Examples.half 3) = Ok (false, e') /\
      inliers_ e' = [] /\ model_ e' = []) /\
  (exists e',
      computeModel (Examples.first_of_pool true true) Examples.numerics 10
        (Examples.engine [0; 1; 2] Examples.half 3) = Ok (true, e') /\
      model_ e' <> []).
Proof.
  split.
  - destruct (loop (Examples.first_of_pool true false) Examples.numerics 10
                (Examples.start (Examples.first_of_pool true false)
                   [0; 1; 2] 3))
      as [s| | |] eqn:Hloop; [|vm_compute in Hloop; discriminate Hloop..].
    assert (feq (threshold_ (Examples.engine [0; 1; 2] Examples.half 3))
              DBL_MAX = false) as Hthr by (vm_compute; reflexivity).
    assert (init (Examples.first_of_pool true false)
              (Examples.engine [0; 1; 2] Examples.half 3)
            = Ok (Examples.start (Examples.first_of_pool true false)
                    [0; 1; 2] 3))
      as Hinit by (vm_compute; reflexivity).
    assert (I_N_best (fr s) = 0) as Hz
      by (vm_compute in Hloop; injection Hloop as <-; reflexivity).
    destruct (@a_run_without_a_best_on_a_fresh_engine_returns_false unit
                (Examples.first_of_pool true false) Examples.numerics 10
                (Examples.engine [0; 1; 2] Examples.half 3)
                (Examples.start (Examples.first_of_pool true false)
                   [0; 1; 2] 3)
                s Hthr Hinit Hloop)
      as [Hnone _].
    destruct Hnone as (Hrun & Hin & Hm).
    + reflexivity.
    + exact (no_trial_accepted _ Hinit (loop_exits _ _ _ _ Hloop) Hz).
    + exists (set_inliers_ [] (this s)). auto.
  - destruct (loop (Examples.first_of_pool true true) Examples.numerics 10
                (Examples.start (Examples.first_of_pool true true)
                   [0; 1; 2] 3))
      as [s| | |] eqn:Hloop; [|vm_compute in Hloop; discriminate Hloop..].
    assert (feq (threshold_ (Examples.engine [0; 1; 2] Examples.half 3))
              DBL_MAX = false) as Hthr by (vm_compute; reflexivity).
    assert (init (Examples.first_of_pool true true)
              (Examples.engine [0; 1; 2] Examples.half 3)
            = Ok (Examples.start (Examples.first_of_pool true true)
                    [0; 1; 2] 3))
      as Hinit by (vm_compute; reflexivity).
    destruct (@a_run_without_a_best_on_a_fresh_engine_returns_false unit
                (Examples.first_of_pool true true) Examples.numerics 10
                (Examples.engine [0; 1; 2] Examples.half 3)
                (Examples.start (Examples.first_of_pool true true)
                   [0; 1; 2] 3)
                s Hthr Hinit Hloop)
      as [_ Hsome].
    destruct Hsome as (Hrun & Hm & _).
    + destruct (trial (Examples.first_of_pool true true) Examples.numerics
                  (Examples.start (Examples.first_of_pool true true)
                     [0; 1; 2] 3))
        as [r| | |] eqn:Ht; [|vm_compute in Ht; discriminate Ht..].
      exists (Examples.start (Examples.first_of_pool true true) [0; 1; 2] 3), r.
      split.
      * split; [apply head_start|]. split; [|exact Ht].
        vm_compute. reflexivity.
      * vm_compute in Ht. injection Ht as <-. vm_compute. reflexivity.
    + exists (this s). split; [exact Hrun|exact Hm].
Defined.
